(** * CubeChess prototype: the grid-cube builder and the viewer lifecycle

    A shallow embedding of [src/App.tsx]: [buildCubeGrid] with its inner
    [makeFaceGrid], and the effect of [CubeChessPrototype] ([init], [onResize],
    [animate], the cleanup closure and the effect's own cleanup).

    Numbers.  JavaScript numbers are idealised as exact rationals ([Q]); the
    rounding of IEEE doubles and of the [Float32Array] behind
    [Float32BufferAttribute] is not modelled.  The subdivision count [n] is an
    integer ([Z]).

    Objects.  [THREE.Vector3] objects are mutable and are passed around by
    reference ([copy], [add] and [multiplyScalar] update the receiver in
    place), so they live in a heap that the builder threads through; every
    other object the builder creates is reachable from the returned group
    only and is modelled as a value. *)

From Stdlib Require Import ZArith QArith Qabs Qminmax Lia Lqa List.
From stdpp Require Import base list.
From Equations Require Import Equations.
Import ListNotations.

Set Default Proof Using "Type".
Set Warnings "-register-all".
Local Open Scope Q_scope.

(** ** Completions and the state-and-exception monad *)

Inductive Exn : Type :=
| TypeError       (* property access on null or undefined *)
| NotFoundError   (* DOMException of removeChild *)
| ImportError.    (* a rejected dynamic import *)

Inductive Completion (A : Type) : Type :=
| Normal (a : A)
| Throw (e : Exn).
Arguments Normal {A} a.
Arguments Throw {A} e.

(** A computation over a store [S]: side effects made before a [Throw] stay. *)
Definition M (S A : Type) : Type := S -> Completion A * S.

Definition ret {S A} (a : A) : M S A := fun s => (Normal a, s).

Definition bind {S A B} (m : M S A) (k : A -> M S B) : M S B :=
  fun s => match m s with
           | (Normal a, s') => k a s'
           | (Throw e, s') => (Throw e, s')
           end.

Definition throw {S A} (e : Exn) : M S A := fun s => (Throw e, s).
Definition get {S} : M S S := fun s => (Normal s, s).
Definition put {S} (s : S) : M S unit := fun _ => (Normal tt, s).
Definition modify {S} (f : S -> S) : M S unit := fun s => (Normal tt, f s).

Declare Scope js_scope.
Delimit Scope js_scope with js.
Notation "'let*' x ':=' m 'in' k" := (bind m (fun x => k))
  (at level 10, x pattern, m at level 100, k at level 200) : js_scope.
Notation "m ';;' k" := (bind m (fun _ => k))
  (at level 100, k at level 200, right associativity) : js_scope.

(** ** THREE.Vector3 on a heap *)

Record Vector3 : Type := mkV { vx : Q; vy : Q; vz : Q }.

Definition vadd (a b : Vector3) : Vector3 :=
  mkV (vx a + vx b) (vy a + vy b) (vz a + vz b).
Definition vscale (a : Vector3) (s : Q) : Vector3 :=
  mkV (vx a * s) (vy a * s) (vz a * s).

Definition Ref : Type := nat.
Definition Heap : Type := list Vector3.

Module V3.

(** [new THREE.Vector3(x, y, z)] *)
Definition new (x y z : Q) : M Heap Ref :=
  fun h => (Normal (length h), h ++ [mkV x y z]).

Definition read (r : Ref) : M Heap Vector3 :=
  fun h => match h !! r with
           | Some v => (Normal v, h)
           | None => (Throw TypeError, h)
           end.

Definition write (r : Ref) (v : Vector3) : M Heap unit :=
  fun h => (Normal tt, <[r := v]> h).

(** [this.copy(v)]: overwrite the receiver, return the receiver. *)
Definition copy (this v : Ref) : M Heap Ref :=
  (let* s := read v in
   let* _ := read this in
   write this s ;;
   ret this)%js.

(** [this.add(v)]: in-place sum, return the receiver. *)
Definition add (this v : Ref) : M Heap Ref :=
  (let* a := read this in
   let* b := read v in
   write this (vadd a b) ;;
   ret this)%js.

(** [this.clone()]: a fresh vector with the receiver's coordinates. *)
Definition clone (this : Ref) : M Heap Ref :=
  (let* a := read this in
   new (vx a) (vy a) (vz a))%js.

(** [this.multiplyScalar(s)]: in-place scaling, return the receiver. *)
Definition multiplyScalar (this : Ref) (s : Q) : M Heap Ref :=
  (let* a := read this in
   write this (vscale a s) ;;
   ret this)%js.

End V3.

(** ** The scene-graph values built by [buildCubeGrid] *)

Inductive Side : Type := FrontSide | BackSide | DoubleSide.

Inductive Material : Type :=
| LineBasicMaterial (color : Z) (linewidth : Q)
| MeshStandardMaterial (color : Z) (roughness metalness : Q) (side : Side)
                       (opacity : Q) (transparent : bool).

(** [material.opacity = o] and [material.transparent = t]; every material has
    both properties, with three.js defaults [1] and [false]. *)
Definition set_opacity (o : Q) (m : Material) : Material :=
  match m with
  | MeshStandardMaterial c r k s _ t => MeshStandardMaterial c r k s o t
  | LineBasicMaterial c w => LineBasicMaterial c w
  end.
Definition set_transparent (t : bool) (m : Material) : Material :=
  match m with
  | MeshStandardMaterial c r k s o _ => MeshStandardMaterial c r k s o t
  | LineBasicMaterial c w => LineBasicMaterial c w
  end.

(** [Float32BufferAttribute(array, itemSize)] *)
Record BufferAttribute : Type :=
  Float32BufferAttribute { array : list Q; itemSize : nat }.

Inductive Geometry : Type :=
| BoxGeometry (width height depth : Q)
| EdgesGeometry (g : Geometry)
| BufferGeometry (position : BufferAttribute).

Record Euler : Type := mkEuler { ex : Q; ey : Q; ez : Q }.

Inductive Object3D : Type :=
| Mesh (g : Geometry) (m : Material)
| LineSegments (g : Geometry) (m : Material)
| Group (children : list Object3D) (rotation : Euler).

Definition children_of (o : Object3D) : list Object3D :=
  match o with Group cs _ => cs | _ => [] end.

(** [group.add(child)] *)
Definition group_add (child : Object3D) (g : Object3D) : Object3D :=
  match g with
  | Group cs r => Group (cs ++ [child]) r
  | o => o
  end.
Definition set_rotation_y (a : Q) (g : Object3D) : Object3D :=
  match g with
  | Group cs r => Group cs (mkEuler (ex r) a (ez r))
  | o => o
  end.
Definition set_rotation_x (a : Q) (g : Object3D) : Object3D :=
  match g with
  | Group cs r => Group cs (mkEuler a (ey r) (ez r))
  | o => o
  end.

(** ** [buildCubeGrid] *)

Section BuildCubeGrid.

(** The arguments [n] and [size] of [buildCubeGrid]; [makeFaceGrid] closes
    over them, over [half] and [step], and over [edgeMat]. *)
Variables (n : Z) (size : Q).

Definition edgeMat : Material := LineBasicMaterial 0x111827%Z 1.

Definition half : Q := size / 2.
Definition step : Q := size / inject_Z n.

(** The chain
    [new THREE.Vector3().copy(offset).add(uDir.clone().multiplyScalar(su))
                                     .add(vDir.clone().multiplyScalar(sv))]
    that the loop body evaluates for each of [a], [b], [c] and [d]. *)
Definition corner (offset uDir vDir : Ref) (su sv : Q) : M Heap Ref :=
  (let* p := V3.new 0 0 0 in
   let* p := V3.copy p offset in
   let* t := V3.clone uDir in
   let* t := V3.multiplyScalar t su in
   let* p := V3.add p t in
   let* t := V3.clone vDir in
   let* t := V3.multiplyScalar t sv in
   V3.add p t)%js.

(** [lines.push(a.x, a.y, a.z, b.x, b.y, b.z)] *)
Definition push_segment (lines : list Q) (a b : Ref) : M Heap (list Q) :=
  (let* va := V3.read a in
   let* vb := V3.read b in
   ret (lines ++ [vx va; vy va; vz va; vx vb; vy vb; vz vb]))%js.

(** One iteration of the [for] loop of [makeFaceGrid]. *)
Definition loop_body (offset uDir vDir : Ref) (i : Z) (lines : list Q)
  : M Heap (list Q) :=
  (let t := - half + inject_Z i * step in
   (* horizontal line *)
   let* a := corner offset uDir vDir (- half) t in
   let* b := corner offset uDir vDir half t in
   let* lines := push_segment lines a b in
   (* vertical line *)
   let* c := corner offset uDir vDir t (- half) in
   let* d := corner offset uDir vDir t half in
   push_segment lines c d)%js.

(** [for (let i = ...; i < n; i++) { ... }], from the current [i]. *)
Equations? for_loop (offset uDir vDir : Ref) (i : Z) (lines : list Q)
  (h : Heap) : Completion (list Q) * Heap by wf (Z.to_nat (n - i)) lt :=
  for_loop offset uDir vDir i lines h with Z_lt_dec i n := {
    | left _ =>
        match loop_body offset uDir vDir i lines h with
        | (Normal lines', h') => for_loop offset uDir vDir (i + 1) lines' h'
        | (Throw e, h') => (Throw e, h')
        end
    | right _ => (Normal lines, h) }.
Proof. lia. Qed.

Definition makeFaceGrid (offset uDir vDir : Ref) : M Heap Object3D :=
  (let* lines := for_loop offset uDir vDir 1 [] in
   let geom := BufferGeometry (Float32BufferAttribute lines 3) in
   ret (LineSegments geom edgeMat))%js.

(** [group.add(makeFaceGrid(new THREE.Vector3(..), new THREE.Vector3(..),
    new THREE.Vector3(..)))]: the three vectors are allocated left to right
    before the call. *)
Definition add_face (ox oy oz ux uy uz wx wy wz : Q) (group : Object3D)
  : M Heap Object3D :=
  (let* offset := V3.new ox oy oz in
   let* uDir := V3.new ux uy uz in
   let* vDir := V3.new wx wy wz in
   let* face := makeFaceGrid offset uDir vDir in
   ret (group_add face group))%js.

Definition epsilon : Q := 0.001.

Definition buildCubeGrid : M Heap Object3D :=
  (let group := Group [] (mkEuler 0 0 0) in
   let faceMat := MeshStandardMaterial 0xffffff%Z 0.6 0 DoubleSide 1 false in
   (* Big slightly transparent cube for volume: the mesh holds [faceMat]
      itself, so the two assignments through [box.material] show in it. *)
   let faceMat := set_opacity 0.95 faceMat in
   let faceMat := set_transparent true faceMat in
   let box := Mesh (BoxGeometry size size size) faceMat in
   let group := group_add box group in
   (* Outer wireframe edges *)
   let edges := EdgesGeometry (BoxGeometry size size size) in
   let group := group_add (LineSegments edges edgeMat) group in
   (* +Z face (front) *)
   let* group := add_face 0 0 (half + epsilon) 1 0 0 0 1 0 group in
   (* -Z back *)
   let* group := add_face 0 0 (- half - epsilon) (-1) 0 0 0 1 0 group in
   (* +X right *)
   let* group := add_face (half + epsilon) 0 0 0 0 (-1) 0 1 0 group in
   (* -X left *)
   let* group := add_face (- half - epsilon) 0 0 0 0 1 0 1 0 group in
   (* +Y top *)
   let* group := add_face 0 (half + epsilon) 0 1 0 0 0 0 (-1) group in
   (* -Y bottom *)
   let* group := add_face 0 (- half - epsilon) 0 1 0 0 0 0 1 group in
   let group := set_rotation_y (-0.4) group in
   let group := set_rotation_x 0.15 group in
   ret group)%js.

End BuildCubeGrid.

(** ** Reading a built node

    A [LineSegments] object draws one segment per pair of consecutive
    vertices of its geometry's position attribute (three numbers a vertex). *)

Definition Segment : Type := (Vector3 * Vector3)%type.

Fixpoint vertices3 (l : list Q) : list Vector3 :=
  match l with
  | x :: y :: z :: rest => mkV x y z :: vertices3 rest
  | _ => []
  end.

Definition vertices (a : BufferAttribute) : list Vector3 :=
  if Nat.eqb (itemSize a) 3 then vertices3 (array a) else [].

Fixpoint pairs (l : list Vector3) : list Segment :=
  match l with
  | a :: b :: rest => (a, b) :: pairs rest
  | _ => []
  end.

(** Modelled from the spec: three.js ([THREE.BoxGeometry],
    [THREE.EdgesGeometry]) is a dependency that is not under src/.  The spec
    has the builder "extract the cube's 12 geometric edges": the edges of the
    axis-aligned box of the given extents centred at the origin, that is the
    pairs of corners that differ in the sign of exactly one coordinate. *)
Definition box_corner (w h d : Q) (sx sy sz : bool) : Vector3 :=
  let sgn (b : bool) (x : Q) := if b then x / 2 else - (x / 2) in
  mkV (sgn sx w) (sgn sy h) (sgn sz d).

Definition box_edges (w h d : Q) : list Segment :=
  let c := box_corner w h d in
  flat_map (fun p : bool * bool =>
              let (s, t) := p in
              [ (c false s t, c true s t);
                (c s false t, c s true t);
                (c s t false, c s t true) ])
           [(false, false); (false, true); (true, false); (true, true)].

Definition segments_of (g : Geometry) : list Segment :=
  match g with
  | EdgesGeometry (BoxGeometry w h d) => box_edges w h d
  | BufferGeometry a => pairs (vertices a)
  | _ => []
  end.

Definition line_segments (o : Object3D) : list Segment :=
  match o with
  | LineSegments g _ => segments_of g
  | _ => []
  end.

(** The children of the node in the order [buildCubeGrid] adds them: the
    solid volume, the outer wireframe, then the six face grids. *)
Definition solid (node : Object3D) : option Object3D :=
  children_of node !! 0%nat.
Definition wireframe (node : Object3D) : option Object3D :=
  children_of node !! 1%nat.
Definition faceGrids (node : Object3D) : list Object3D :=
  drop 2 (children_of node).

(** ** What the loop computes, as a function of the vectors' values *)

Section FaceLines.

Variables (n : Z) (size : Q).

Definition point (o u v : Vector3) (su sv : Q) : Vector3 :=
  vadd (vadd o (vscale u su)) (vscale v sv).

Definition coords (a b : Vector3) : list Q :=
  [vx a; vy a; vz a; vx b; vy b; vz b].

(** The interior offset [-half + i * step]. *)
Definition gridOffset (i : Z) : Q := - half size + inject_Z i * step n size.

Definition iteration_lines (o u v : Vector3) (i : Z) : list Q :=
  let t := gridOffset i in
  coords (point o u v (- half size) t) (point o u v (half size) t)
  ++ coords (point o u v t (- half size)) (point o u v t (half size)).

(** [len] consecutive integers from [start]. *)
Fixpoint zseq (start : Z) (len : nat) : list Z :=
  match len with
  | O => []
  | S len' => start :: zseq (start + 1) len'
  end.

(** The values of [i] the loop runs its body at: [1, ..., n - 1]. *)
Definition interiorIndices : list Z := zseq 1 (Z.to_nat (n - 1)).

Definition faceLines (o u v : Vector3) : list Q :=
  flat_map (iteration_lines o u v) interiorIndices.

Definition faceGrid (o u v : Vector3) : Object3D :=
  LineSegments (BufferGeometry (Float32BufferAttribute (faceLines o u v) 3))
               edgeMat.

(** The six faces as (offset, uDir, vDir), in the order they are added. *)
Definition faceFrames : list (Vector3 * Vector3 * Vector3) :=
  let h := half size in
  [ (mkV 0 0 (h + epsilon),   mkV 1 0 0,    mkV 0 1 0);
    (mkV 0 0 (- h - epsilon), mkV (-1) 0 0, mkV 0 1 0);
    (mkV (h + epsilon) 0 0,   mkV 0 0 (-1), mkV 0 1 0);
    (mkV (- h - epsilon) 0 0, mkV 0 0 1,    mkV 0 1 0);
    (mkV 0 (h + epsilon) 0,   mkV 1 0 0,    mkV 0 0 (-1));
    (mkV 0 (- h - epsilon) 0, mkV 1 0 0,    mkV 0 0 1) ].

Definition cubeNode : Object3D :=
  Group
    (Mesh (BoxGeometry size size size)
          (MeshStandardMaterial 0xffffff%Z 0.6 0 DoubleSide 0.95 true)
     :: LineSegments (EdgesGeometry (BoxGeometry size size size)) edgeMat
     :: map (fun f : Vector3 * Vector3 * Vector3 =>
               let '(o, u, v) := f in faceGrid o u v) faceFrames)
    (mkEuler 0.15 (-0.4) 0).

End FaceLines.

(** ** Segments of a face grid *)



Definition veq (p q : Vector3) : Prop :=
  vx p == vx q /\ vy p == vy q /\ vz p == vz q.

(** The two segments the loop body pushes at index [i]. *)
Definition iteration_segments (n : Z) (size : Q) (o u v : Vector3) (i : Z)
  : list Segment :=
  let t := gridOffset n size i in
  [ (point o u v (- half size) t, point o u v (half size) t);
    (point o u v t (- half size), point o u v t (half size)) ].

Definition faceSegments (n : Z) (size : Q) (o u v : Vector3) : list Segment :=
  flat_map (iteration_segments n size o u v) (interiorIndices n).









(** ** More vocabulary for segments *)

Definition vsub (a b : Vector3) : Vector3 :=
  mkV (vx a - vx b) (vy a - vy b) (vz a - vz b).

(** The six numbers [lines.push] writes for a segment. *)
Definition segment_coords (s : Segment) : list Q := coords (fst s) (snd s).

Definition segment_veq (s1 s2 : Segment) : Prop :=
  veq (fst s1) (fst s2) /\ veq (snd s1) (snd s2).

Definition map_segment (f : Vector3 -> Vector3) (s : Segment) : Segment :=
  (f (fst s), f (snd s)).

(** The half turns about the Y axis and about the X axis. *)
Definition halfTurnY (p : Vector3) : Vector3 := mkV (- vx p) (vy p) (- vz p).
Definition halfTurnX (p : Vector3) : Vector3 := mkV (vx p) (- vy p) (- vz p).

(** ** The viewer lifecycle: the effect of [CubeChessPrototype]

    The effect's closure variables, the part of the page and of the browser
    they talk to, and the promise of [init] make up one [World].  What the
    host does (an import settles, a promise reaction runs, the window is
    resized, an animation frame fires, React runs the effect's cleanup, the
    mount region goes away) is an [Event]. *)

Module Lifecycle.

(** The closures [init] creates. *)
Inductive Closure : Type := onResize | animate | cleanup.

Definition Closure_eqb (a b : Closure) : bool :=
  match a, b with
  | onResize, onResize | animate, animate | cleanup, cleanup => true
  | _, _ => false
  end.

Definition DomNode : Type := nat.

(** The element behind [mountRef.current]. *)
Record Element : Type :=
  mkElement { clientWidth : Q; childNodes : list DomNode }.

Inductive Encoding : Type := LinearEncoding | sRGBEncoding.

Record WebGLRenderer : Type := mkRenderer {
  domElement : DomNode;
  pixelRatio : Q;
  rendererSize : Q * Q;          (* set by [setSize] *)
  outputEncoding : Encoding;
  rendererDisposals : nat        (* calls of [dispose] *)
}.

Record PerspectiveCamera : Type := mkCamera {
  fov : Q; aspect : Q; near : Q; far : Q;
  cameraPosition : Vector3;
  projectionAspect : Q           (* the aspect the projection matrix was
                                    last computed from *)
}.

Record OrbitControls : Type := mkControls {
  enableDamping : bool;
  dampingFactor : Q;
  minDistance : Q;
  maxDistance : option Q;        (* [None] is [Infinity] *)
  controlsUpdates : nat;         (* calls of [update] *)
  controlsDisposals : nat        (* calls of [dispose] *)
}.

Inductive Angle : Type := Radians (q : Q) | PiTimes (q : Q).

Inductive SceneChild : Type :=
| AmbientLight (color : Z) (intensity : Q)
| DirectionalLight (color : Z) (intensity : Q) (position : Vector3)
| Object (o : Object3D)
| PlaneMesh (width height : Q) (m : Material) (rotation_x : Angle)
            (position_y : Q).

Record Scene : Type :=
  mkScene { background : option Z; sceneChildren : list SceneChild }.

(** Calls on the browser and on three.js objects, in the order made. *)
Inductive Call : Type :=
| addEventListener (c : Closure)
| removeEventListener (c : Closure)
| requestAnimationFrame (c : Closure)
| cancelAnimationFrame (id : option nat)
| appendChild (node : DomNode)
| removeChild (node : DomNode)
| renderer_setSize (w h : Q)
| renderer_render
| renderer_dispose
| camera_updateProjectionMatrix
| controls_update
| controls_dispose.

(** Where the promise returned by [init()] stands. *)
Inductive Phase : Type :=
| Uninitialized                      (* the effect has not run *)
| AwaitingThree                      (* [await import("three")] *)
| AwaitingOrbitControls              (* [await import(".../OrbitControls")] *)
| Settled (r : Completion Closure)   (* [init] returned or threw; the
                                        [then]/[catch] reaction is queued *)
| Done.                              (* the reaction has run *)

Record World : Type := mkWorld {
  (* the page and the browser *)
  mountRef_current : option Element;
  innerHeight : Q;
  devicePixelRatio : Q;
  resizeListeners : list Closure;
  frameRequests : list (nat * Closure);
  nextFrameId : nat;
  nextNode : DomNode;
  console : list Exn;                (* [console.error] *)
  uncaught : list Exn;               (* errors thrown out of a handler *)
  calls : list Call;
  (* the variables of the effect *)
  renderer : option WebGLRenderer;
  scene : option Scene;
  camera : option PerspectiveCamera;
  controls : option OrbitControls;
  animId : option nat;
  cubeGroup : option Object3D;
  cleanupPromise : option Closure;
  (* the promise of [init] and the vectors it allocates *)
  phase : Phase;
  vectors : Heap
}.

Definition set_mountRef_current (x : option Element) (w : World) : World :=
  let '(mkWorld _ ih dpr rl fr nf nn co un ca re sc cm ct ai cg cp ph ve) :=
    w in
  mkWorld x ih dpr rl fr nf nn co un ca re sc cm ct ai cg cp ph ve.
Definition set_resizeListeners (x : list Closure) (w : World) : World :=
  let '(mkWorld mr ih dpr _ fr nf nn co un ca re sc cm ct ai cg cp ph ve) :=
    w in
  mkWorld mr ih dpr x fr nf nn co un ca re sc cm ct ai cg cp ph ve.
Definition set_frameRequests (x : list (nat * Closure)) (w : World) : World :=
  let '(mkWorld mr ih dpr rl _ nf nn co un ca re sc cm ct ai cg cp ph ve) :=
    w in
  mkWorld mr ih dpr rl x nf nn co un ca re sc cm ct ai cg cp ph ve.
Definition set_nextFrameId (x : nat) (w : World) : World :=
  let '(mkWorld mr ih dpr rl fr _ nn co un ca re sc cm ct ai cg cp ph ve) :=
    w in
  mkWorld mr ih dpr rl fr x nn co un ca re sc cm ct ai cg cp ph ve.
Definition set_nextNode (x : DomNode) (w : World) : World :=
  let '(mkWorld mr ih dpr rl fr nf _ co un ca re sc cm ct ai cg cp ph ve) :=
    w in
  mkWorld mr ih dpr rl fr nf x co un ca re sc cm ct ai cg cp ph ve.
Definition set_console (x : list Exn) (w : World) : World :=
  let '(mkWorld mr ih dpr rl fr nf nn _ un ca re sc cm ct ai cg cp ph ve) :=
    w in
  mkWorld mr ih dpr rl fr nf nn x un ca re sc cm ct ai cg cp ph ve.
Definition set_uncaught (x : list Exn) (w : World) : World :=
  let '(mkWorld mr ih dpr rl fr nf nn co _ ca re sc cm ct ai cg cp ph ve) :=
    w in
  mkWorld mr ih dpr rl fr nf nn co x ca re sc cm ct ai cg cp ph ve.
Definition set_calls (x : list Call) (w : World) : World :=
  let '(mkWorld mr ih dpr rl fr nf nn co un _ re sc cm ct ai cg cp ph ve) :=
    w in
  mkWorld mr ih dpr rl fr nf nn co un x re sc cm ct ai cg cp ph ve.
Definition set_renderer (x : option WebGLRenderer) (w : World) : World :=
  let '(mkWorld mr ih dpr rl fr nf nn co un ca _ sc cm ct ai cg cp ph ve) :=
    w in
  mkWorld mr ih dpr rl fr nf nn co un ca x sc cm ct ai cg cp ph ve.
Definition set_scene (x : option Scene) (w : World) : World :=
  let '(mkWorld mr ih dpr rl fr nf nn co un ca re _ cm ct ai cg cp ph ve) :=
    w in
  mkWorld mr ih dpr rl fr nf nn co un ca re x cm ct ai cg cp ph ve.
Definition set_camera (x : option PerspectiveCamera) (w : World) : World :=
  let '(mkWorld mr ih dpr rl fr nf nn co un ca re sc _ ct ai cg cp ph ve) :=
    w in
  mkWorld mr ih dpr rl fr nf nn co un ca re sc x ct ai cg cp ph ve.
Definition set_controls (x : option OrbitControls) (w : World) : World :=
  let '(mkWorld mr ih dpr rl fr nf nn co un ca re sc cm _ ai cg cp ph ve) :=
    w in
  mkWorld mr ih dpr rl fr nf nn co un ca re sc cm x ai cg cp ph ve.
Definition set_animId (x : option nat) (w : World) : World :=
  let '(mkWorld mr ih dpr rl fr nf nn co un ca re sc cm ct _ cg cp ph ve) :=
    w in
  mkWorld mr ih dpr rl fr nf nn co un ca re sc cm ct x cg cp ph ve.
Definition set_cubeGroup (x : option Object3D) (w : World) : World :=
  let '(mkWorld mr ih dpr rl fr nf nn co un ca re sc cm ct ai _ cp ph ve) :=
    w in
  mkWorld mr ih dpr rl fr nf nn co un ca re sc cm ct ai x cp ph ve.
Definition set_cleanupPromise (x : option Closure) (w : World) : World :=
  let '(mkWorld mr ih dpr rl fr nf nn co un ca re sc cm ct ai cg _ ph ve) :=
    w in
  mkWorld mr ih dpr rl fr nf nn co un ca re sc cm ct ai cg x ph ve.
Definition set_phase (x : Phase) (w : World) : World :=
  let '(mkWorld mr ih dpr rl fr nf nn co un ca re sc cm ct ai cg cp _ ve) :=
    w in
  mkWorld mr ih dpr rl fr nf nn co un ca re sc cm ct ai cg cp x ve.
Definition set_vectors (x : Heap) (w : World) : World :=
  let '(mkWorld mr ih dpr rl fr nf nn co un ca re sc cm ct ai cg cp ph _) :=
    w in
  mkWorld mr ih dpr rl fr nf nn co un ca re sc cm ct ai cg cp ph x.

Local Open Scope js_scope.

(** *** Primitive operations *)

Definition gets {X} (f : World -> X) : M World X :=
  fun w => (Normal (f w), w).

Definition log (c : Call) : M World unit :=
  modify (fun w => set_calls (calls w ++ [c]) w).

(** Reading a property of [x]: a [TypeError] when [x] is null or
    undefined. *)
Definition deref {X} (x : World -> option X) : M World X :=
  fun w => match x w with
           | Some v => (Normal v, w)
           | None => (Throw TypeError, w)
           end.

(** A computation on the vectors' heap, run inside the world. *)
Definition lift_heap {X} (m : M Heap X) : M World X :=
  fun w => let (r, h') := m (vectors w) in (r, set_vectors h' w).

(** [window.addEventListener("resize", c)]: a listener that is already
    registered is not added again. *)
Definition window_addEventListener (c : Closure) : M World unit :=
  log (addEventListener c) ;;
  modify (fun w =>
            if existsb (Closure_eqb c) (resizeListeners w) then w
            else set_resizeListeners (resizeListeners w ++ [c]) w).

(** [window.removeEventListener("resize", c)]: no error when [c] is not
    registered. *)
Definition window_removeEventListener (c : Closure) : M World unit :=
  log (removeEventListener c) ;;
  modify (fun w =>
            set_resizeListeners
              (List.filter (fun x => negb (Closure_eqb c x))
                           (resizeListeners w)) w).

Definition window_requestAnimationFrame (c : Closure) : M World nat :=
  log (requestAnimationFrame c) ;;
  let* id := gets nextFrameId in
  modify (fun w => set_nextFrameId (Datatypes.S id)
                     (set_frameRequests (frameRequests w ++ [(id, c)]) w)) ;;
  ret id.

(** [cancelAnimationFrame(id)]: no error when [id] is undefined or names no
    pending request. *)
Definition window_cancelAnimationFrame (id : option nat) : M World unit :=
  log (cancelAnimationFrame id) ;;
  modify (fun w =>
            set_frameRequests
              (List.filter
                 (fun r : nat * Closure =>
                    match id with
                    | Some i => negb (Nat.eqb i (fst r))
                    | None => true
                    end)
                 (frameRequests w)) w).

(** [mountRef.current.appendChild(node)] *)
Definition mount_appendChild (node : M World DomNode) : M World unit :=
  let* el := deref mountRef_current in
  let* nd := node in
  log (appendChild nd) ;;
  modify (set_mountRef_current
            (Some (mkElement (clientWidth el)
                     (List.filter (fun x => negb (Nat.eqb nd x))
                                  (childNodes el) ++ [nd])))).

(** [mountRef.current.removeChild(node)]: the DOM raises a [NotFoundError]
    when [node] is not a child of the element. *)
Definition mount_removeChild (node : M World DomNode) : M World unit :=
  let* el := deref mountRef_current in
  let* nd := node in
  log (removeChild nd) ;;
  if existsb (Nat.eqb nd) (childNodes el)
  then modify (set_mountRef_current
                 (Some (mkElement (clientWidth el)
                          (List.filter (fun x => negb (Nat.eqb nd x))
                                       (childNodes el)))))
  else throw NotFoundError.

(** [new THREE.WebGLRenderer(..)]: a renderer with a canvas of its own. *)
Definition new_WebGLRenderer : M World WebGLRenderer :=
  let* node := gets nextNode in
  modify (set_nextNode (Datatypes.S node)) ;;
  ret (mkRenderer node 1 (300, 150) LinearEncoding 0).

Definition with_renderer (f : WebGLRenderer -> WebGLRenderer) : M World unit :=
  let* r := deref renderer in modify (set_renderer (Some (f r))).
Definition with_scene (f : Scene -> Scene) : M World unit :=
  let* s := deref scene in modify (set_scene (Some (f s))).
Definition with_camera (f : PerspectiveCamera -> PerspectiveCamera)
  : M World unit :=
  let* c := deref camera in modify (set_camera (Some (f c))).
Definition with_controls (f : OrbitControls -> OrbitControls) : M World unit :=
  let* c := deref controls in modify (set_controls (Some (f c))).

Definition renderer_setPixelRatio (p : Q) : M World unit :=
  with_renderer (fun r => mkRenderer (domElement r) p (rendererSize r)
                            (outputEncoding r) (rendererDisposals r)).
Definition renderer_setSize_ (w h : Q) : M World unit :=
  let* _ := deref renderer in
  log (renderer_setSize w h) ;;
  with_renderer (fun r => mkRenderer (domElement r) (pixelRatio r) (w, h)
                            (outputEncoding r) (rendererDisposals r)).
Definition renderer_set_outputEncoding (e : Encoding) : M World unit :=
  with_renderer (fun r => mkRenderer (domElement r) (pixelRatio r)
                            (rendererSize r) e (rendererDisposals r)).
Definition renderer_render_ : M World unit :=
  let* _ := deref renderer in
  log renderer_render.
Definition renderer_dispose_ : M World unit :=
  let* _ := deref renderer in
  log renderer_dispose ;;
  with_renderer (fun r => mkRenderer (domElement r) (pixelRatio r)
                            (rendererSize r) (outputEncoding r)
                            (Datatypes.S (rendererDisposals r))).

(** [new THREE.PerspectiveCamera(fov, aspect, near, far)]; the constructor
    computes the projection. *)
Definition new_PerspectiveCamera (fov aspect near far : Q)
  : PerspectiveCamera :=
  mkCamera fov aspect near far (mkV 0 0 0) aspect.
Definition camera_position_set (x y z : Q) : M World unit :=
  with_camera (fun c => mkCamera (fov c) (aspect c) (near c) (far c)
                          (mkV x y z) (projectionAspect c)).
Definition camera_set_aspect (a : Q) : M World unit :=
  with_camera (fun c => mkCamera (fov c) a (near c) (far c)
                          (cameraPosition c) (projectionAspect c)).
Definition camera_updateProjectionMatrix_ : M World unit :=
  let* _ := deref camera in
  log camera_updateProjectionMatrix ;;
  with_camera (fun c => mkCamera (fov c) (aspect c) (near c) (far c)
                          (cameraPosition c) (aspect c)).

(** [new OrbitControls(camera, renderer.domElement)], with the defaults of
    three.js. *)
Definition new_OrbitControls : OrbitControls :=
  mkControls false 0.05 0 None 0 0.
Definition controls_update_ : M World unit :=
  let* _ := deref controls in
  log controls_update ;;
  with_controls (fun c => mkControls (enableDamping c) (dampingFactor c)
                            (minDistance c) (maxDistance c)
                            (Datatypes.S (controlsUpdates c))
                            (controlsDisposals c)).
Definition controls_dispose_ : M World unit :=
  let* _ := deref controls in
  log controls_dispose ;;
  with_controls (fun c => mkControls (enableDamping c) (dampingFactor c)
                            (minDistance c) (maxDistance c)
                            (controlsUpdates c)
                            (Datatypes.S (controlsDisposals c))).

Definition scene_add (x : SceneChild) : M World unit :=
  with_scene (fun s => mkScene (background s) (sceneChildren s ++ [x])).

(** *** The closures of [init] *)

(** [Math.max(400, window.innerHeight * 0.45)] *)
Definition viewHeight (innerHeight : Q) : Q := Qmax 400 (innerHeight * 0.45).

Definition onResize_body : M World unit :=
  let* el := deref mountRef_current in
  let w := clientWidth el in
  let* ih := gets innerHeight in
  let h := viewHeight ih in
  renderer_setSize_ w h ;;
  camera_set_aspect (w / h) ;;
  camera_updateProjectionMatrix_.

Definition animate_body : M World unit :=
  controls_update_ ;;
  renderer_render_ ;;
  let* id := window_requestAnimationFrame animate in
  modify (set_animId (Some id)).

Definition cleanup_body : M World unit :=
  window_removeEventListener onResize ;;
  (let* id := gets animId in window_cancelAnimationFrame id) ;;
  controls_dispose_ ;;
  renderer_dispose_ ;;
  mount_removeChild (let* r := deref renderer in ret (domElement r)).

Definition call (c : Closure) : M World unit :=
  match c with
  | onResize => onResize_body
  | animate => animate_body
  | cleanup => cleanup_body
  end.

(** [init] from the line after its second [await] to its [return]. *)
Definition init_rest : M World Closure :=
  let* el := deref mountRef_current in
  let width := clientWidth el in
  let* ih := gets innerHeight in
  let height := viewHeight ih in

  let* r := new_WebGLRenderer in
  modify (set_renderer (Some r)) ;;
  (let* dpr := gets devicePixelRatio in renderer_setPixelRatio dpr) ;;
  renderer_setSize_ width height ;;
  renderer_set_outputEncoding sRGBEncoding ;;

  mount_appendChild (let* r := deref renderer in ret (domElement r)) ;;

  modify (set_scene (Some (mkScene None []))) ;;
  with_scene (fun s => mkScene (Some 0xf7f7fb%Z) (sceneChildren s)) ;;

  modify (set_camera
            (Some (new_PerspectiveCamera 45 (width / height) 0.1 1000))) ;;
  camera_position_set 4 4 6 ;;

  (let* _ := deref renderer in
   modify (set_controls (Some new_OrbitControls))) ;;
  with_controls (fun c => mkControls true (dampingFactor c) (minDistance c)
                            (maxDistance c) (controlsUpdates c)
                            (controlsDisposals c)) ;;
  with_controls (fun c => mkControls (enableDamping c) 0.08 (minDistance c)
                            (maxDistance c) (controlsUpdates c)
                            (controlsDisposals c)) ;;
  with_controls (fun c => mkControls (enableDamping c) (dampingFactor c) 3
                            (maxDistance c) (controlsUpdates c)
                            (controlsDisposals c)) ;;
  with_controls (fun c => mkControls (enableDamping c) (dampingFactor c)
                            (minDistance c) (Some 20) (controlsUpdates c)
                            (controlsDisposals c)) ;;

  (* Ambient + directional light *)
  scene_add (AmbientLight 0xffffff%Z 0.8) ;;
  scene_add (DirectionalLight 0xffffff%Z 0.6 (mkV 5 10 7)) ;;

  (* Helper grid cube *)
  let* g := lift_heap (buildCubeGrid 3 2.4) in
  modify (set_cubeGroup (Some g)) ;;
  (let* g := deref cubeGroup in scene_add (Object g)) ;;

  (* soft ground plane shadow *)
  scene_add (PlaneMesh 20 20
               (MeshStandardMaterial 0xffffff%Z 1 0 FrontSide 0.4 true)
               (PiTimes (- (1 # 2))) (-1.6)) ;;

  window_addEventListener onResize ;;

  animate_body ;;

  (* cleanup *)
  ret cleanup.

(** The function the effect returns:
    [() => { if (cleanupPromise) cleanupPromise(); }]. *)
Definition effect_cleanup : M World unit :=
  let* c := gets cleanupPromise in
  match c with
  | Some f => call f
  | None => ret tt
  end.

(** *** Events *)

Inductive Event : Type :=
| Mount              (* React runs the effect: [init()] starts and awaits *)
| ImportResolves     (* the import [init] is waiting for is fulfilled *)
| ImportRejects      (* ... or rejected *)
| PromiseReaction    (* the [then] or [catch] callback of [init()] runs *)
| Teardown           (* React runs the function the effect returned *)
| WindowResize       (* the window fires [resize] *)
| AnimationFrame     (* the browser runs the pending frame callbacks *)
| HostRemovesMount.  (* [mountRef.current] becomes null *)

(** An error thrown out of a handler is reported by the host; the page goes
    on. *)
Definition report (m : M World unit) (w : World) : World :=
  match m w with
  | (Normal _, w') => w'
  | (Throw e, w') => set_uncaught (uncaught w' ++ [e]) w'
  end.

Definition dispatch (ev : Event) (w : World) : World :=
  match ev with
  | Mount =>
      match phase w with
      | Uninitialized => set_phase AwaitingThree w
      | _ => w
      end
  | ImportResolves =>
      match phase w with
      | AwaitingThree => set_phase AwaitingOrbitControls w
      | AwaitingOrbitControls =>
          let (r, w') := init_rest w in set_phase (Settled r) w'
      | _ => w
      end
  | ImportRejects =>
      match phase w with
      | AwaitingThree | AwaitingOrbitControls =>
          set_phase (Settled (Throw ImportError)) w
      | _ => w
      end
  | PromiseReaction =>
      match phase w with
      | Settled (Normal c) => set_phase Done (set_cleanupPromise (Some c) w)
      | Settled (Throw e) => set_phase Done (set_console (console w ++ [e]) w)
      | _ => w
      end
  | Teardown => report effect_cleanup w
  | WindowResize =>
      fold_left (fun w c => report (call c) w) (resizeListeners w) w
  | AnimationFrame =>
      fold_left (fun w (r : nat * Closure) => report (call (snd r)) w)
                (frameRequests w) (set_frameRequests [] w)
  | HostRemovesMount => set_mountRef_current None w
  end.

Definition run (evs : list Event) (w : World) : World :=
  fold_left (fun w ev => dispatch ev w) evs w.

(** The world before the effect runs. *)
Definition initial (mount : option Element) (innerHeight dpr : Q) : World :=
  mkWorld mount innerHeight dpr [] [] 1%nat 0%nat [] [] []
          None None None None None None None Uninitialized [].

(** *** States of a session *)

(** Acquisition of the rendering library is pending and nothing has been set
    up. *)
Definition Pending (w : World) : Prop :=
  (phase w = AwaitingThree \/ phase w = AwaitingOrbitControls)
  /\ resizeListeners w = [] /\ frameRequests w = []
  /\ cubeGroup w = None /\ cleanupPromise w = None
  /\ ~ In renderer_render (calls w).

(** Something of a running session is there: geometry, a resize listener, a
    requested frame or a rendered one. *)
Definition Active (w : World) : Prop :=
  cubeGroup w <> None \/ resizeListeners w <> [] \/ frameRequests w <> []
  \/ In renderer_render (calls w).

(** The session runs: [init] has set everything up, its cleanup closure has
    been stored, and nothing has been released. *)
Definition Running (w : World) : Prop :=
  cleanupPromise w = Some cleanup
  /\ resizeListeners w = [onResize]
  /\ (exists id, animId w = Some id /\ frameRequests w = [(id, animate)])
  /\ (exists r, renderer w = Some r /\ rendererDisposals r = 0%nat)
  /\ (exists c, controls w = Some c /\ controlsDisposals c = 0%nat)
  /\ camera w <> None /\ scene w <> None /\ cubeGroup w <> None.

(** The mount region is live and holds the rendering surface. *)
Definition Attached (w : World) : Prop :=
  exists el r, mountRef_current w = Some el /\ renderer w = Some r
               /\ In (domElement r) (childNodes el).

Definition disposals (w : World) : nat * nat :=
  (match controls w with Some c => controlsDisposals c | None => 0%nat end,
   match renderer w with Some r => rendererDisposals r | None => 0%nat end).

(** The events that bring a mounted viewer to [Running]. *)
Definition startup : list Event :=
  [Mount; ImportResolves; ImportResolves; PromiseReaction].

(** Nothing of a session is there, and nothing can bring one: the mount
    reference is null and [init] has not returned normally. *)
Definition Quiet (w : World) : Prop :=
  mountRef_current w = None
  /\ resizeListeners w = [] /\ frameRequests w = []
  /\ cubeGroup w = None /\ cleanupPromise w = None
  /\ ~ In renderer_render (calls w)
  /\ forall c, phase w <> Settled (Normal c).

(** A concrete page: a mount region 800 wide with no child, a viewport 1000
    high, device pixel ratio 2. *)
Definition page : World := initial (Some (mkElement 800 [])) 1000 2.

(** The page with the viewer started, and with acquisition still pending. *)
Definition started : World := run startup page.
Definition pending : World := run [Mount] page.

(** Both imports are fulfilled, the reaction of [init()] runs, then a frame
    fires and the window is resized. *)
Definition resumed : list Event :=
  [ImportResolves; ImportResolves; PromiseReaction; AnimationFrame;
   WindowResize].



(** [init] has failed or its failure has been handled, and nothing of a
    session is there. *)
Definition Failed (w : World) : Prop :=
  ((exists e, phase w = Settled (Throw e)) \/ phase w = Done)
  /\ resizeListeners w = [] /\ frameRequests w = []
  /\ cubeGroup w = None /\ cleanupPromise w = None
  /\ ~ In renderer_render (calls w).

(** The promise of [init] has been dealt with and no handler is installed:
    the console, the errors reported and the calls made stay as they are. *)
Definition Settled_idle (co un : list Exn) (ca : list Call) (w : World)
  : Prop :=
  phase w = Done /\ cleanupPromise w = None
  /\ resizeListeners w = [] /\ frameRequests w = []
  /\ console w = co /\ uncaught w = un /\ calls w = ca.

(** Events that only call into what [init] installed. *)
Definition handler_event (ev : Event) : Prop :=
  ev = Teardown \/ ev = WindowResize \/ ev = AnimationFrame.

End Lifecycle.

(** * Proofs

    ** The builder on the heap computes [cubeNode] *)

Section Runs.

Context {S A B : Type}.

Lemma bind_Normal (m : M S A) (k : A -> M S B) s a s' :
  m s = (Normal a, s') -> bind m k s = k a s'.
Proof. unfold bind. now intros ->. Qed.

End Runs.

Lemma lookup_fresh (h : Heap) (v : Vector3) (e : Heap) :
  (h ++ v :: e) !! length h = Some v.
Proof. apply list_lookup_middle. reflexivity. Qed.

Lemma lookup_grow (h e : Heap) (r : Ref) (v : Vector3) :
  h !! r = Some v -> (h ++ e) !! r = Some v.
Proof. apply lookup_app_l_Some. Qed.

Lemma insert_fresh (h : Heap) (v w : Vector3) (e : Heap) :
  <[length h := w]> (h ++ v :: e) = h ++ w :: e.
Proof.
  replace (length h) with (length h + 0)%nat by lia.
  now rewrite insert_app_r.
Qed.

Create HintDb heap.
#[local] Hint Resolve lookup_fresh lookup_grow : heap.

Lemma read_run (h : Heap) (r : Ref) (v : Vector3) :
  h !! r = Some v -> V3.read r h = (Normal v, h).
Proof. unfold V3.read. now intros ->. Qed.

Ltac run_with H := erewrite bind_Normal by (apply H; eauto with heap).

Lemma copy_fresh (h e : Heap) (src : Ref) (old s : Vector3) :
  (h ++ old :: e) !! src = Some s ->
  V3.copy (length h) src (h ++ old :: e) = (Normal (length h), h ++ s :: e).
Proof.
  intros Hs. unfold V3.copy.
  run_with read_run. run_with read_run.
  unfold bind, V3.write, ret. now rewrite insert_fresh.
Qed.

Lemma add_fresh (h e : Heap) (o : Ref) (a b : Vector3) :
  (h ++ a :: e) !! o = Some b ->
  V3.add (length h) o (h ++ a :: e) = (Normal (length h), h ++ vadd a b :: e).
Proof.
  intros Hb. unfold V3.add.
  run_with read_run. run_with read_run.
  unfold bind, V3.write, ret. now rewrite insert_fresh.
Qed.

Lemma clone_run (h : Heap) (r : Ref) (a : Vector3) :
  h !! r = Some a ->
  V3.clone r h = (Normal (length h), h ++ [a]).
Proof.
  intros Ha. unfold V3.clone. run_with read_run.
  unfold V3.new. now destruct a.
Qed.

Lemma multiplyScalar_fresh (h e : Heap) (a : Vector3) (s : Q) :
  V3.multiplyScalar (length h) s (h ++ a :: e)
  = (Normal (length h), h ++ vscale a s :: e).
Proof.
  unfold V3.multiplyScalar. run_with read_run.
  unfold bind, V3.write, ret. now rewrite insert_fresh.
Qed.

Lemma lookup_fresh1 (h : Heap) (a v : Vector3) (e : Heap) :
  (h ++ a :: v :: e) !! length (h ++ [a]) = Some v.
Proof.
  replace (h ++ a :: v :: e) with ((h ++ [a]) ++ v :: e)
    by now rewrite <- app_assoc.
  apply lookup_fresh.
Qed.

Lemma lookup_fresh2 (h : Heap) (a b v : Vector3) (e : Heap) :
  (h ++ a :: b :: v :: e) !! length (h ++ [a; b]) = Some v.
Proof.
  replace (h ++ a :: b :: v :: e) with ((h ++ [a; b]) ++ v :: e)
    by now rewrite <- app_assoc.
  apply lookup_fresh.
Qed.

Lemma multiplyScalar_fresh2 (h : Heap) (a b v : Vector3) (s : Q) (e : Heap) :
  V3.multiplyScalar (length (h ++ [a; b])) s (h ++ a :: b :: v :: e)
  = (Normal (length (h ++ [a; b])), h ++ a :: b :: vscale v s :: e).
Proof.
  replace (h ++ a :: b :: v :: e) with ((h ++ [a; b]) ++ v :: e)
    by now rewrite <- app_assoc.
  rewrite multiplyScalar_fresh. now rewrite <- app_assoc.
Qed.

Section CornerRuns.

Variables (h : Heap) (offset uDir vDir : Ref) (vo vu vv : Vector3).
Hypothesis Hoffset : h !! offset = Some vo.
Hypothesis HuDir : h !! uDir = Some vu.
Hypothesis HvDir : h !! vDir = Some vv.

Lemma corner_run (su sv : Q) :
  corner offset uDir vDir su sv h
  = (Normal (length h),
     h ++ [point vo vu vv su sv; vscale vu su; vscale vv sv]).
Proof using Hoffset HuDir HvDir.
  unfold corner.
  erewrite bind_Normal by reflexivity.
  run_with copy_fresh.
  run_with clone_run.
  erewrite bind_Normal by apply multiplyScalar_fresh.
  rewrite <- app_assoc; simpl.
  erewrite bind_Normal by (apply add_fresh, lookup_fresh1).
  run_with clone_run.
  rewrite <- app_assoc; simpl.
  erewrite bind_Normal by apply multiplyScalar_fresh2.
  rewrite add_fresh with (b := vscale vv sv) by apply lookup_fresh2.
  reflexivity.
Qed.

End CornerRuns.

Section FaceRuns.

Variables (n : Z) (size : Q).

Lemma push_segment_run (h : Heap) (lines : list Q) (a b : Ref)
      (va vb : Vector3) :
  h !! a = Some va -> h !! b = Some vb ->
  push_segment lines a b h = (Normal (lines ++ coords va vb), h).
Proof.
  intros Ha Hb. unfold push_segment.
  run_with read_run. run_with read_run. reflexivity.
Qed.

(** One iteration appends its two segments, allocates and touches nothing
    that was on the heap before. *)
Lemma loop_body_run (h : Heap) (offset uDir vDir : Ref) (vo vu vv : Vector3)
      (i : Z) (lines : list Q) :
  h !! offset = Some vo -> h !! uDir = Some vu -> h !! vDir = Some vv ->
  exists e,
    loop_body n size offset uDir vDir i lines h
    = (Normal (lines ++ iteration_lines n size vo vu vv i), h ++ e).
Proof.
  intros Ho Hu Hv. unfold loop_body, iteration_lines, gridOffset.
  set (t := - half size + inject_Z i * step n size).
  erewrite bind_Normal by (eapply corner_run; eauto).
  erewrite bind_Normal by (eapply corner_run; eauto with heap).
  erewrite bind_Normal
    by (eapply push_segment_run; [apply lookup_grow | ]; apply lookup_fresh).
  erewrite bind_Normal by (eapply corner_run; eauto with heap).
  erewrite bind_Normal by (eapply corner_run; eauto 6 with heap).
  erewrite push_segment_run; [ | apply lookup_grow | ]; try apply lookup_fresh.
  rewrite <- !app_assoc. eexists. reflexivity.
Qed.

Lemma for_loop_run (k : nat) :
  forall (h : Heap) (offset uDir vDir : Ref) (vo vu vv : Vector3)
         (i : Z) (lines : list Q),
    h !! offset = Some vo -> h !! uDir = Some vu -> h !! vDir = Some vv ->
    Z.to_nat (n - i) = k ->
    exists e,
      for_loop n size offset uDir vDir i lines h
      = (Normal (lines
                 ++ flat_map (iteration_lines n size vo vu vv) (zseq i k)),
         h ++ e).
Proof.
  induction k as [|k IH];
    intros h offset uDir vDir vo vu vv i lines Ho Hu Hv Hk;
    simp for_loop; destruct (Z_lt_dec i n) as [Hlt|Hge]; simpl; try lia.
  - exists []. now rewrite !app_nil_r.
  - destruct (loop_body_run h offset uDir vDir vo vu vv i lines Ho Hu Hv)
      as [e1 ->].
    destruct (IH (h ++ e1) offset uDir vDir vo vu vv (i + 1)%Z
                 (lines ++ iteration_lines n size vo vu vv i))
      as [e2 ->]; eauto with heap; try lia.
    exists (e1 ++ e2). now rewrite <- !app_assoc.
Qed.

Lemma makeFaceGrid_run (h : Heap) (offset uDir vDir : Ref)
      (vo vu vv : Vector3) :
  h !! offset = Some vo -> h !! uDir = Some vu -> h !! vDir = Some vv ->
  exists e,
    makeFaceGrid n size offset uDir vDir h
    = (Normal (faceGrid n size vo vu vv), h ++ e).
Proof.
  intros Ho Hu Hv. unfold makeFaceGrid.
  destruct (for_loop_run (Z.to_nat (n - 1)) h offset uDir vDir vo vu vv 1 []
                         Ho Hu Hv eq_refl) as [e He].
  erewrite bind_Normal by exact He. exists e. reflexivity.
Qed.

Lemma add_face_run (h : Heap) (o u v : Vector3) (cs : list Object3D)
      (r : Euler) :
  exists e,
    add_face n size (vx o) (vy o) (vz o) (vx u) (vy u) (vz u)
             (vx v) (vy v) (vz v) (Group cs r) h
    = (Normal (Group (cs ++ [faceGrid n size o u v]) r), h ++ e).
Proof.
  unfold add_face, V3.new.
  do 3 (erewrite bind_Normal by reflexivity).
  destruct (makeFaceGrid_run
              (((h ++ [o]) ++ [u]) ++ [v])
              (length h) (length (h ++ [o])) (length ((h ++ [o]) ++ [u]))
              o u v) as [e He].
  - rewrite <- !app_assoc. apply lookup_fresh.
  - rewrite <- app_assoc. apply lookup_fresh.
  - apply lookup_fresh.
  - destruct o, u, v; simpl in *.
    erewrite bind_Normal by exact He.
    eexists (_ :: _ :: _ :: e). now rewrite <- !app_assoc.
Qed.

Ltac face o u v :=
  match goal with
  | |- context [bind (add_face _ _ _ _ _ _ _ _ _ _ _ (Group ?cs ?r)) _ ?h] =>
      let Hf := fresh "Hf" in
      destruct (add_face_run h o u v cs r) as [? Hf];
      cbn [vx vy vz] in Hf; erewrite bind_Normal by exact Hf; clear Hf
  end.

(** On every heap [buildCubeGrid] returns normally, its value is [cubeNode],
    and the heap it leaves is the one it was given, extended. *)
Theorem buildCubeGrid_run (h : Heap) :
  exists e, buildCubeGrid n size h = (Normal (cubeNode n size), h ++ e).
Proof.
  unfold buildCubeGrid, group_add.
  pose (hf := half size).
  face (mkV 0 0 (hf + epsilon)) (mkV 1 0 0) (mkV 0 1 0).
  face (mkV 0 0 (- hf - epsilon)) (mkV (-1) 0 0) (mkV 0 1 0).
  face (mkV (hf + epsilon) 0 0) (mkV 0 0 (-1)) (mkV 0 1 0).
  face (mkV (- hf - epsilon) 0 0) (mkV 0 0 1) (mkV 0 1 0).
  face (mkV 0 (hf + epsilon) 0) (mkV 1 0 0) (mkV 0 0 (-1)).
  face (mkV 0 (- hf - epsilon) 0) (mkV 1 0 0) (mkV 0 0 1).
  rewrite <- !app_assoc. eexists. reflexivity.
Qed.

End FaceRuns.

Section GridFacts.

Variables (n : Z) (size : Q).

Lemma zseq_length (s : Z) (k : nat) : length (zseq s k) = k.
Proof. revert s; induction k; intros; simpl; auto. Qed.

Lemma in_zseq (k : nat) : forall s i,
  In i (zseq s k) <-> (s <= i < s + Z.of_nat k)%Z.
Proof.
  induction k as [|k IH]; intros s i; simpl.
  - lia.
  - rewrite IH. lia.
Qed.

Lemma in_interiorIndices (i : Z) :
  In i (interiorIndices n) <-> (1 <= i <= n - 1)%Z.
Proof. unfold interiorIndices. rewrite in_zseq. lia. Qed.

Lemma face_segments_of_lines (o u v : Vector3) (l : list Z) :
  pairs (vertices3 (flat_map (iteration_lines n size o u v) l))
  = flat_map (iteration_segments n size o u v) l.
Proof.
  induction l as [|i l IH]; simpl; [reflexivity|].
  now rewrite IH.
Qed.

Lemma line_segments_faceGrid (o u v : Vector3) :
  line_segments (faceGrid n size o u v) = faceSegments n size o u v.
Proof. apply face_segments_of_lines. Qed.

Lemma faceSegments_length (o u v : Vector3) :
  length (faceSegments n size o u v) = (2 * Z.to_nat (n - 1))%nat.
Proof.
  unfold faceSegments, interiorIndices.
  generalize (Z.to_nat (n - 1)) as k. generalize 1%Z as s.
  intros s k; revert s.
  induction k as [|k IH]; intros s; simpl.
  - reflexivity.
  - rewrite IH. lia.
Qed.

Lemma faceGrids_cubeNode :
  faceGrids (cubeNode n size)
  = map (fun f : Vector3 * Vector3 * Vector3 =>
           let '(o, u, v) := f in faceGrid n size o u v) (faceFrames size).
Proof. reflexivity. Qed.

Lemma in_faceSegments (o u v : Vector3) (s : Segment) :
  In s (faceSegments n size o u v) <->
  exists i, (1 <= i <= n - 1)%Z /\ In s (iteration_segments n size o u v i).
Proof.
  unfold faceSegments. rewrite in_flat_map.
  split; intros [i [Hi Hs]]; exists i; split; auto;
    now apply in_interiorIndices.
Qed.


End GridFacts.

Section GridBounds.

Variables (n : Z) (size : Q).
Hypothesis Hn : (1 <= n)%Z.





End GridBounds.

(** ** The claims about the builder *)

Lemma box_edges_length (w h d : Q) : length (box_edges w h d) = 12%nat.
Proof. reflexivity. Qed.

Lemma faceGrids_segments (n : Z) (size : Q) :
  Forall2 (fun (fr : Vector3 * Vector3 * Vector3) f =>
             let '(o, u, v) := fr in
             line_segments f = faceSegments n size o u v)
          (faceFrames size) (faceGrids (cubeNode n size)).
Proof.
  rewrite faceGrids_cubeNode. unfold faceFrames.
  repeat constructor; apply line_segments_faceGrid.
Qed.

Lemma flat_map_length_const {X Y} (f : X -> list Y) (k : nat) (l : list X) :
  Forall (fun x => length (f x) = k) l ->
  length (flat_map f l) = (length l * k)%nat.
Proof.
  induction 1 as [|x l Hx _ IH]; simpl; [reflexivity|].
  rewrite length_app, IH, Hx. reflexivity.
Qed.

Lemma faceGrids_counts (n : Z) (size : Q) :
  Forall (fun f => length (line_segments f) = (2 * Z.to_nat (n - 1))%nat)
         (faceGrids (cubeNode n size)).
Proof.
  rewrite faceGrids_cubeNode. unfold faceFrames.
  repeat constructor; rewrite line_segments_faceGrid;
    apply faceSegments_length.
Qed.

(** C1.  For every integer [n >= 1] and every [size] (so for every
    [size > 0], and whatever it is), [buildCubeGrid n size] returns a node
    with six face grids of exactly [2 * (n - 1)] line segments each,
    [12 * (n - 1)] grid segments in all, and a wireframe of exactly 12
    edges. *)
Theorem buildCubeGrid_segment_counts (n : Z) (size : Q) (h : Heap) :
  (1 <= n)%Z ->
  exists node h',
    buildCubeGrid n size h = (Normal node, h')
    /\ length (faceGrids node) = 6%nat
    /\ Forall (fun f => Z.of_nat (length (line_segments f)) = (2 * (n - 1))%Z)
              (faceGrids node)
    /\ Z.of_nat (length (flat_map line_segments (faceGrids node)))
       = (12 * (n - 1))%Z
    /\ exists w, wireframe node = Some w
                 /\ length (line_segments w) = 12%nat.
Proof.
  intros Hn. destruct (buildCubeGrid_run n size h) as [e He].
  exists (cubeNode n size), (h ++ e). split; [exact He|].
  pose proof (faceGrids_counts n size) as Hc.
  split; [reflexivity|]. split; [|split].
  - eapply Forall_impl; [exact Hc|]. simpl. intros f ->. lia.
  - rewrite (flat_map_length_const _ _ _ Hc).
    change (length (faceGrids (cubeNode n size))) with 6%nat. lia.
  - eexists. split; [reflexivity|]. apply box_edges_length.
Qed.

(** C7.  For [n = 1] and any [size], [buildCubeGrid] returns normally and
    none of the six face grids has a line; the node still holds the solid
    volume and the 12 wireframe edges. *)
Theorem buildCubeGrid_n1_undecorated (size : Q) (h : Heap) :
  exists node h',
    buildCubeGrid 1 size h = (Normal node, h')
    /\ length (faceGrids node) = 6%nat
    /\ Forall (fun f => line_segments f = []) (faceGrids node)
    /\ (exists m, solid node = Some (Mesh (BoxGeometry size size size) m))
    /\ exists w, wireframe node = Some w
                 /\ length (line_segments w) = 12%nat.
Proof.
  destruct (buildCubeGrid_run 1 size h) as [e He].
  exists (cubeNode 1 size), (h ++ e). split; [exact He|].
  split; [reflexivity|]. split; [|split].
  - rewrite faceGrids_cubeNode. repeat constructor.
  - eexists. reflexivity.
  - eexists. split; [reflexivity|]. apply box_edges_length.
Qed.



Section OnSurface.

Variables (n : Z) (size : Q).
Hypothesis Hn : (1 <= n)%Z.
Hypothesis Hsize : 0 < size.



End OnSurface.



Lemma buildCubeGrid_segment_counts_witness :
  exists node h',
    buildCubeGrid 3 2.4 [] = (Normal node, h')
    /\ length (faceGrids node) = 6%nat
    /\ Forall (fun f => Z.of_nat (length (line_segments f)) = (2 * (3 - 1))%Z)
              (faceGrids node)
    /\ Z.of_nat (length (flat_map line_segments (faceGrids node)))
       = (12 * (3 - 1))%Z
    /\ exists w, wireframe node = Some w
                 /\ length (line_segments w) = 12%nat.
Proof.
  apply (buildCubeGrid_segment_counts 3 2.4 []). lia.
Defined.

Section Symmetry.

Variables (n : Z) (size : Q).
Hypothesis Hn : (1 <= n)%Z.




End Symmetry.



(** ** The lifecycle *)

Import Lifecycle.

Lemma existsb_eqb_In (x : nat) (l : list nat) :
  In x l -> existsb (Nat.eqb x) l = true.
Proof.
  intros H. apply existsb_exists. exists x. split; [exact H|].
  apply Nat.eqb_refl.
Qed.

Lemma existsb_eqb_not_In (x : nat) (l : list nat) :
  ~ In x l -> existsb (Nat.eqb x) l = false.
Proof.
  intros H. destruct (existsb (Nat.eqb x) l) eqn:E; [|reflexivity].
  apply existsb_exists in E as (y & Hy & Exy).
  apply Nat.eqb_eq in Exy. subst. contradiction.
Qed.

Lemma not_In_filter_neq (x : nat) (l : list nat) :
  ~ In x (List.filter (fun y => negb (Nat.eqb x y)) l).
Proof.
  intros H. apply filter_In in H as [_ H].
  now rewrite Nat.eqb_refl in H.
Qed.

Lemma filter_onResize_not_In (l : list Closure) :
  ~ In onResize (List.filter (fun x => negb (Closure_eqb onResize x)) l).
Proof. intros H. apply filter_In in H as [_ H]. discriminate. Qed.

(** Projections of a world through a chain of setters: reduce the setters
    innermost first, so that every field is computed once. *)
Ltac world :=
  cbv [set_mountRef_current set_resizeListeners set_frameRequests
       set_nextFrameId set_nextNode set_console set_uncaught set_calls
       set_renderer set_scene set_camera set_controls set_animId
       set_cubeGroup set_cleanupPromise set_phase set_vectors
       mountRef_current innerHeight devicePixelRatio resizeListeners
       frameRequests nextFrameId nextNode console uncaught calls renderer
       scene camera controls animId cubeGroup cleanupPromise phase vectors
       disposals].

(** The cleanup closure on a world whose three variables are set and whose
    mount region holds the surface: the five calls, in order, and what each
    leaves. *)
Lemma cleanup_attached (w : World) (el : Element) (r : WebGLRenderer)
      (c : OrbitControls) :
  mountRef_current w = Some el -> renderer w = Some r -> controls w = Some c ->
  In (domElement r) (childNodes el) ->
  exists w',
    cleanup_body w = (Normal tt, w')
    /\ calls w' = calls w ++ [removeEventListener onResize;
                              cancelAnimationFrame (animId w);
                              controls_dispose; renderer_dispose;
                              removeChild (domElement r)]
    /\ ~ In onResize (resizeListeners w')
    /\ (forall id, animId w = Some id ->
                   forall f, ~ In (id, f) (frameRequests w'))
    /\ disposals w' = (Datatypes.S (controlsDisposals c),
                       Datatypes.S (rendererDisposals r))
    /\ (exists el' r' c',
           mountRef_current w' = Some el' /\ renderer w' = Some r'
           /\ controls w' = Some c' /\ domElement r' = domElement r
           /\ ~ In (domElement r') (childNodes el'))
    /\ cleanupPromise w' = cleanupPromise w
    /\ uncaught w' = uncaught w.
Proof.
  intros Hm Hr Hc Hin. destruct w; cbn in *; subst.
  unfold cleanup_body, mount_removeChild, bind; cbn.
  rewrite (existsb_eqb_In _ _ Hin). cbn.
  eexists. split; [reflexivity|]. world.
  split; [now rewrite <- !app_assoc|].
  split; [apply filter_onResize_not_In|].
  split.
  { intros id -> f H. apply filter_In in H as [_ H]. cbn in H.
    now rewrite Nat.eqb_refl in H. }
  split; [reflexivity|].
  split; [|split; reflexivity].
  do 3 eexists. repeat split. apply not_In_filter_neq.
Qed.

(** The same closure when the surface is not (or no longer) a child of the
    mount region: four steps, then [removeChild] raises. *)
Lemma cleanup_detached (w : World) (el : Element) (r : WebGLRenderer)
      (c : OrbitControls) :
  mountRef_current w = Some el -> renderer w = Some r -> controls w = Some c ->
  ~ In (domElement r) (childNodes el) ->
  exists w',
    cleanup_body w = (Throw NotFoundError, w')
    /\ ~ In onResize (resizeListeners w')
    /\ disposals w' = (Datatypes.S (controlsDisposals c),
                       Datatypes.S (rendererDisposals r)).
Proof.
  intros Hm Hr Hc Hin. destruct w; cbn in *; subst.
  unfold cleanup_body, mount_removeChild, bind; cbn.
  rewrite (existsb_eqb_not_In _ _ Hin). cbn.
  eexists. split; [reflexivity|]. world.
  split; [apply filter_onResize_not_In|reflexivity].
Qed.

(** The same closure when [mountRef.current] is null: four steps, then the
    property access on null raises. *)
Lemma cleanup_unmounted (w : World) (r : WebGLRenderer) (c : OrbitControls) :
  mountRef_current w = None -> renderer w = Some r -> controls w = Some c ->
  exists w',
    cleanup_body w = (Throw TypeError, w')
    /\ calls w' = calls w ++ [removeEventListener onResize;
                              cancelAnimationFrame (animId w);
                              controls_dispose; renderer_dispose]
    /\ ~ In onResize (resizeListeners w')
    /\ (forall id, animId w = Some id ->
                   forall f, ~ In (id, f) (frameRequests w'))
    /\ disposals w' = (Datatypes.S (controlsDisposals c),
                       Datatypes.S (rendererDisposals r)).
Proof.
  intros Hm Hr Hc. destruct w; cbn in *; subst.
  unfold cleanup_body, mount_removeChild, bind; cbn.
  eexists. split; [reflexivity|]. world.
  split; [now rewrite <- !app_assoc|].
  split; [apply filter_onResize_not_In|].
  split; [|reflexivity].
  intros id -> f H. apply filter_In in H as [_ H]. cbn in H.
  now rewrite Nat.eqb_refl in H.
Qed.

Lemma effect_cleanup_running (w : World) :
  cleanupPromise w = Some cleanup -> effect_cleanup w = cleanup_body w.
Proof. intros H. unfold effect_cleanup, bind, gets. now rewrite H. Qed.

Lemma effect_cleanup_pending (w : World) :
  cleanupPromise w = None -> effect_cleanup w = (Normal tt, w).
Proof. intros H. unfold effect_cleanup, bind, gets. now rewrite H. Qed.

(** [onResize] on a world with a live mount region, a renderer and a
    camera. *)
Lemma onResize_run (w : World) (el : Element) (r : WebGLRenderer)
      (c : PerspectiveCamera) :
  mountRef_current w = Some el -> renderer w = Some r -> camera w = Some c ->
  let W := clientWidth el in
  let H := viewHeight (innerHeight w) in
  exists w',
    onResize_body w = (Normal tt, w')
    /\ camera w' = Some (mkCamera (fov c) (W / H) (near c) (far c)
                                  (cameraPosition c) (W / H))
    /\ renderer w' = Some (mkRenderer (domElement r) (pixelRatio r) (W, H)
                                      (outputEncoding r) (rendererDisposals r))
    /\ calls w' = calls w ++ [renderer_setSize W H;
                              camera_updateProjectionMatrix]
    /\ uncaught w' = uncaught w.
Proof.
  intros Hm Hr Hc W H. subst W H. destruct w; cbn in *; subst.
  unfold onResize_body, bind; cbn.
  eexists. split; [reflexivity|]. cbn.
  repeat split. now rewrite <- app_assoc.
Qed.

(** [init], resumed with [mountRef.current] null, raises at its first line
    and leaves the world as it was. *)
Lemma init_rest_unmounted (w : World) :
  mountRef_current w = None -> init_rest w = (Throw TypeError, w).
Proof.
  intros H. unfold init_rest, bind, deref. now rewrite H.
Qed.

Lemma Quiet_dispatch (ev : Event) (w : World) :
  Quiet w -> Quiet (dispatch ev w).
Proof.
  intros (Hm & Hl & Hf & Hg & Hp & Hc & Hph).
  destruct w; cbn in *; subst.
  destruct ev; cbn.
  - destruct phase0; cbn; repeat split; auto; discriminate.
  - destruct phase0; cbn; repeat split; auto; discriminate.
  - destruct phase0; cbn; repeat split; auto; discriminate.
  - destruct phase0 as [| | |[c|e]|]; cbn; repeat split; auto;
      try discriminate.
    now destruct (Hph c).
  - repeat split; auto.
  - repeat split; auto.
  - repeat split; auto.
  - repeat split; auto.
Qed.

Lemma Quiet_run (evs : list Event) : forall w, Quiet w -> Quiet (run evs w).
Proof.
  induction evs as [|ev evs IH]; intros w Hq; [exact Hq|].
  apply IH, Quiet_dispatch, Hq.
Qed.

Lemma Quiet_not_Active (w : World) : Quiet w -> ~ Active w.
Proof.
  intros (_ & Hl & Hf & Hg & _ & Hc & _) [H|[H|[H|H]]]; auto.
Qed.

(** A mounted viewer, started and left alone, runs with its surface
    attached. *)
Lemma startup_Running (el : Element) (ih dpr : Q) :
  Running (run startup (initial (Some el) ih dpr)).
Proof.
  unfold Running. repeat split; try (vm_compute; discriminate).
  - vm_compute. eexists. split; reflexivity.
  - vm_compute. eexists. split; reflexivity.
  - vm_compute. eexists. split; reflexivity.
Qed.

Lemma startup_Attached (el : Element) (ih dpr : Q) :
  Attached (run startup (initial (Some el) ih dpr)).
Proof.
  exists (mkElement (clientWidth el)
            (List.filter (fun x => negb (Nat.eqb 0 x)) (childNodes el)
             ++ [0%nat])),
         (mkRenderer 0%nat dpr (clientWidth el, viewHeight ih) sRGBEncoding 0).
  split; [|split].
  - destruct el. vm_compute. reflexivity.
  - destruct el. vm_compute. reflexivity.
  - apply in_or_app. right. left. reflexivity.
Qed.

Lemma started_Running : Running started.
Proof. apply startup_Running. Qed.

Lemma started_Attached : Attached started.
Proof. apply startup_Attached. Qed.

Lemma pending_Pending : Pending pending.
Proof.
  unfold Pending. vm_compute. repeat split; auto.
Qed.

(** ** The claims about the lifecycle *)

(** C3, as stated, fails: on the page with acquisition pending, teardown is
    requested, then both imports are fulfilled while the mount region is
    still referenced; [init] runs to its end, so that the geometry is built,
    the resize listener registered, and frames are rendered and requested. *)
Lemma teardown_while_pending_resurrects :
  Pending pending
  /\ cubeGroup (run (Teardown :: resumed) pending) <> None
  /\ resizeListeners (run (Teardown :: resumed) pending) = [onResize]
  /\ frameRequests (run (Teardown :: resumed) pending) = [(2%nat, animate)]
  /\ In renderer_render (calls (run (Teardown :: resumed) pending))
  /\ Active (run (Teardown :: resumed) pending).
Proof.
  split; [exact pending_Pending|].
  assert (In renderer_render (calls (run (Teardown :: resumed) pending)))
    as Hr by (vm_compute; tauto).
  split; [vm_compute; discriminate|].
  split; [vm_compute; reflexivity|].
  split; [vm_compute; reflexivity|].
  split; [exact Hr|].
  right. right. right. exact Hr.
Qed.

(** C3, amended.  If teardown is requested while acquisition is pending, the
    teardown does nothing; and if by then the mount region is gone
    ([mountRef.current] is null), then whatever happens afterwards the session
    never becomes active: no geometry is built, no resize listener is
    registered, no frame is requested or rendered. *)
Theorem teardown_while_pending_unmounted (w : World) (evs : list Event) :
  Pending w -> mountRef_current w = None ->
  effect_cleanup w = (Normal tt, w)
  /\ ~ Active (run (Teardown :: evs) w).
Proof.
  intros (Hph & Hl & Hf & Hg & Hp & Hc) Hm.
  pose proof (effect_cleanup_pending w Hp) as Hnop.
  split; [exact Hnop|].
  apply Quiet_not_Active. cbn [run fold_left dispatch].
  unfold report. rewrite Hnop.
  apply Quiet_run. repeat split; auto.
  intros c. destruct Hph as [-> | ->]; discriminate.
Qed.

Lemma teardown_while_pending_unmounted_witness :
  effect_cleanup (dispatch HostRemovesMount pending)
  = (Normal tt, dispatch HostRemovesMount pending)
  /\ ~ Active (run (Teardown :: resumed)
                   (dispatch HostRemovesMount pending)).
Proof.
  apply (teardown_while_pending_unmounted
           (dispatch HostRemovesMount pending)).
  - unfold Pending. vm_compute. repeat split; auto.
  - reflexivity.
Defined.



(** C6.  After a resize event on a running session with a live mount region,
    with [w] the region's client width and
    [h = max(400, innerHeight * 0.45)], the camera's aspect is exactly
    [w / h], its projection has been recomputed from that aspect, and the
    renderer has been resized to [(w, h)]; no error is raised. *)
Theorem resize_sets_aspect (w : World) (el : Element) :
  Running w -> mountRef_current w = Some el ->
  let W := clientWidth el in
  let H := Qmax 400 (innerHeight w * 0.45) in
  exists cam rd,
    camera (dispatch WindowResize w) = Some cam
    /\ aspect cam = W / H
    /\ projectionAspect cam = W / H
    /\ renderer (dispatch WindowResize w) = Some rd
    /\ rendererSize rd = (W, H)
    /\ uncaught (dispatch WindowResize w) = uncaught w.
Proof.
  intros (_ & Hl & _ & (r & Hr & _) & _ & Hcam & _) Hm W H.
  destruct (camera w) as [c|] eqn:Hc; [|contradiction].
  destruct (onResize_run w el r c Hm Hr Hc) as (w' & Hrun & Hc' & Hr' & _ & Hu).
  assert (dispatch WindowResize w = w') as ->.
  { cbn [dispatch]. rewrite Hl. cbn [fold_left call]. unfold report.
    now rewrite Hrun. }
  eexists _, _. split; [exact Hc'|]. split; [reflexivity|].
  split; [reflexivity|]. split; [exact Hr'|]. split; [reflexivity|exact Hu].
Qed.

Lemma resize_sets_aspect_witness :
  exists cam rd,
    camera (dispatch WindowResize started) = Some cam
    /\ aspect cam = 800 / Qmax 400 (1000 * 0.45)
    /\ projectionAspect cam = 800 / Qmax 400 (1000 * 0.45)
    /\ renderer (dispatch WindowResize started) = Some rd
    /\ rendererSize rd = (800, Qmax 400 (1000 * 0.45))
    /\ uncaught (dispatch WindowResize started) = uncaught started.
Proof.
  apply (resize_sets_aspect started (mkElement 800 [0%nat])).
  - unfold Running. vm_compute.
    repeat split; try discriminate; eexists; split; reflexivity.
  - vm_compute. reflexivity.
Defined.

(** C4, as stated, fails: on the started page the second of two teardowns in
    succession raises ([removeChild] of a node that is no longer a child) and
    both the controls and the renderer have by then been released twice. *)
Lemma teardown_twice_raises :
  Running started /\ Attached started
  /\ exists w1 w2,
      effect_cleanup started = (Normal tt, w1)
      /\ effect_cleanup w1 = (Throw NotFoundError, w2)
      /\ disposals w2 = (2%nat, 2%nat).
Proof.
  split; [exact started_Running|]. split; [exact started_Attached|].
  exists (snd (effect_cleanup started)),
         (snd (effect_cleanup (snd (effect_cleanup started)))).
  split; [vm_compute; reflexivity|].
  split; vm_compute; reflexivity.
Qed.

(** C4, amended.  On a running session whose surface is attached, the first
    teardown raises no error, releases the controls and the renderer once
    each and leaves no resize listener registered.  A second teardown in
    succession leaves no resize listener registered either, but it is not a
    no-op: it runs the same steps again, so it releases the controls and the
    renderer a second time and raises at the detach step. *)
Theorem teardown_twice (w : World) :
  Running w -> Attached w ->
  exists w1 w2,
    effect_cleanup w = (Normal tt, w1)
    /\ disposals w1 = (1%nat, 1%nat)
    /\ ~ In onResize (resizeListeners w1)
    /\ effect_cleanup w1 = (Throw NotFoundError, w2)
    /\ disposals w2 = (2%nat, 2%nat)
    /\ ~ In onResize (resizeListeners w2).
Proof.
  intros (Hp & _ & _ & (r0 & Hr0 & Hrd) & (c & Hc & Hcd) & _)
         (el & r & Hm & Hr & Hin).
  rewrite Hr0 in Hr. injection Hr as <-.
  destruct (cleanup_attached w el r0 c Hm Hr0 Hc Hin)
    as (w1 & Hrun1 & _ & Hl1 & _ & Hd1
        & (el' & r' & c' & Hm' & Hr' & Hc' & _ & Hout) & Hp1 & _).
  rewrite Hrd, Hcd in Hd1.
  destruct (cleanup_detached w1 el' r' c' Hm' Hr' Hc' Hout)
    as (w2 & Hrun2 & Hl2 & Hd2).
  assert (controlsDisposals c' = 1%nat /\ rendererDisposals r' = 1%nat)
    as [Ec Er].
  { unfold disposals in Hd1. rewrite Hr', Hc' in Hd1.
    now injection Hd1 as -> ->. }
  rewrite Ec, Er in Hd2.
  exists w1, w2.
  rewrite (effect_cleanup_running w Hp).
  rewrite (effect_cleanup_running w1) by now rewrite Hp1.
  auto 10.
Qed.

Lemma teardown_twice_witness :
  exists w1 w2,
    effect_cleanup started = (Normal tt, w1)
    /\ disposals w1 = (1%nat, 1%nat)
    /\ ~ In onResize (resizeListeners w1)
    /\ effect_cleanup w1 = (Throw NotFoundError, w2)
    /\ disposals w2 = (2%nat, 2%nat)
    /\ ~ In onResize (resizeListeners w2).
Proof.
  apply (teardown_twice started).
  - unfold Running. vm_compute.
    repeat split; try discriminate; eexists; split; reflexivity.
  - unfold Attached. vm_compute. do 2 eexists.
    repeat split. left. reflexivity.
Defined.

(** C5, as stated, fails: on the started page, once the host has removed the
    mount region ([mountRef.current] is null), teardown raises a
    [TypeError] at the detach step. *)
Lemma teardown_unmounted_raises :
  Running (dispatch HostRemovesMount started)
  /\ mountRef_current (dispatch HostRemovesMount started) = None
  /\ exists w',
      effect_cleanup (dispatch HostRemovesMount started)
      = (Throw TypeError, w').
Proof.
  split; [|split].
  - unfold Running. vm_compute.
    repeat split; try discriminate; eexists; split; reflexivity.
  - reflexivity.
  - exists (snd (effect_cleanup (dispatch HostRemovesMount started))).
    vm_compute. reflexivity.
Qed.

(** C5, amended.  If teardown of a running session is requested after the
    mount region has been removed ([mountRef.current] is null), the first four
    steps run -- the resize handler is deregistered, the requested frame
    cancelled, the controls and the renderer released once each -- and the
    detach step raises a [TypeError]: it is not guarded. *)
Theorem teardown_unmounted (w : World) :
  Running w -> mountRef_current w = None ->
  exists w',
    effect_cleanup w = (Throw TypeError, w')
    /\ calls w' = calls w ++ [removeEventListener onResize;
                              cancelAnimationFrame (animId w);
                              controls_dispose; renderer_dispose]
    /\ ~ In onResize (resizeListeners w')
    /\ frameRequests w' = []
    /\ disposals w' = (1%nat, 1%nat).
Proof.
  intros (Hp & _ & (id & Hid & Hf) & (r & Hr & Hrd) & (c & Hc & Hcd) & _) Hm.
  destruct (cleanup_unmounted w r c Hm Hr Hc)
    as (w' & Hrun & Hcalls & Hl & Hfr & Hd).
  exists w'. rewrite (effect_cleanup_running w Hp).
  rewrite Hrd, Hcd in Hd.
  repeat split; auto.
  (* the only request pending was the one [animId] names *)
  clear Hcalls Hl Hd Hfr.
  destruct w; cbn in *; subst.
  unfold cleanup_body, mount_removeChild, bind in Hrun; cbn in Hrun.
  injection Hrun as <-. cbn. now rewrite Nat.eqb_refl.
Qed.

Lemma teardown_unmounted_witness :
  exists w',
    effect_cleanup (dispatch HostRemovesMount started) = (Throw TypeError, w')
    /\ calls w' = calls (dispatch HostRemovesMount started)
                  ++ [removeEventListener onResize;
                      cancelAnimationFrame
                        (animId (dispatch HostRemovesMount started));
                      controls_dispose; renderer_dispose]
    /\ ~ In onResize (resizeListeners w')
    /\ frameRequests w' = []
    /\ disposals w' = (1%nat, 1%nat).
Proof.
  apply (teardown_unmounted (dispatch HostRemovesMount started)).
  - unfold Running. vm_compute.
    repeat split; try discriminate; eexists; split; reflexivity.
  - reflexivity.
Defined.

(** * Further properties

    ** The builder *)

(** X1.  [makeFaceGrid] may be given any three live vectors, the same one
    several times included: it returns normally, what it returns is
    determined by the vectors' coordinates ([faceGrid]), and it leaves every
    vector on the heap -- its three arguments among them -- as it was. *)
Theorem makeFaceGrid_preserves_arguments (n : Z) (size : Q) (h : Heap)
        (offset uDir vDir : Ref) (vo vu vv : Vector3) :
  h !! offset = Some vo -> h !! uDir = Some vu -> h !! vDir = Some vv ->
  exists h',
    makeFaceGrid n size offset uDir vDir h
    = (Normal (faceGrid n size vo vu vv), h')
    /\ h' !! offset = Some vo /\ h' !! uDir = Some vu /\ h' !! vDir = Some vv
    /\ forall r v, h !! r = Some v -> h' !! r = Some v.
Proof.
  intros Ho Hu Hv.
  destruct (makeFaceGrid_run n size h offset uDir vDir vo vu vv Ho Hu Hv)
    as [e He].
  exists (h ++ e). split; [exact He|].
  repeat split; auto using lookup_grow.
Qed.

Lemma makeFaceGrid_preserves_arguments_witness :
  exists h',
    makeFaceGrid 3 2.4 0%nat 0%nat 0%nat [mkV 1 2 3]
    = (Normal (faceGrid 3 2.4 (mkV 1 2 3) (mkV 1 2 3) (mkV 1 2 3)), h')
    /\ h' !! 0%nat = Some (mkV 1 2 3) /\ h' !! 0%nat = Some (mkV 1 2 3)
    /\ h' !! 0%nat = Some (mkV 1 2 3)
    /\ forall r v, [mkV 1 2 3] !! r = Some v -> h' !! r = Some v.
Proof.
  apply (makeFaceGrid_preserves_arguments 3 2.4 [mkV 1 2 3] 0%nat 0%nat 0%nat);
    reflexivity.
Defined.

Lemma interiorIndices_small (n : Z) : (n <= 1)%Z -> interiorIndices n = [].
Proof.
  intros H. unfold interiorIndices.
  replace (Z.to_nat (n - 1)) with 0%nat by lia. reflexivity.
Qed.

(** X2.  [buildCubeGrid] does not validate [n]: for every [n <= 1], zero and
    the negative integers included, the loop never runs, so the call returns
    normally with the solid volume, the 12 wireframe edges and six face grids
    that have no line. *)
Theorem buildCubeGrid_small_n (n : Z) (size : Q) (h : Heap) :
  (n <= 1)%Z ->
  exists node h',
    buildCubeGrid n size h = (Normal node, h')
    /\ length (faceGrids node) = 6%nat
    /\ Forall (fun f => line_segments f = []) (faceGrids node)
    /\ (exists m, solid node = Some (Mesh (BoxGeometry size size size) m))
    /\ exists w, wireframe node = Some w
                 /\ length (line_segments w) = 12%nat.
Proof.
  intros Hn. destruct (buildCubeGrid_run n size h) as [e He].
  exists (cubeNode n size), (h ++ e). split; [exact He|].
  split; [reflexivity|]. split; [|split].
  - rewrite faceGrids_cubeNode. unfold faceFrames. simpl map.
    repeat (apply List.Forall_cons;
            [ rewrite line_segments_faceGrid; unfold faceSegments;
              now rewrite (interiorIndices_small n Hn) | ]).
    apply List.Forall_nil.
  - eexists. reflexivity.
  - eexists. split; [reflexivity|]. apply box_edges_length.
Qed.

Lemma buildCubeGrid_small_n_witness :
  exists node h',
    buildCubeGrid (-2) 2.4 [] = (Normal node, h')
    /\ length (faceGrids node) = 6%nat
    /\ Forall (fun f => line_segments f = []) (faceGrids node)
    /\ (exists m, solid node = Some (Mesh (BoxGeometry 2.4 2.4 2.4) m))
    /\ exists w, wireframe node = Some w
                 /\ length (line_segments w) = 12%nat.
Proof.
  apply (buildCubeGrid_small_n (-2) 2.4 []). lia.
Defined.

Lemma iteration_segments_span (n : Z) (size : Q) (o u v : Vector3) (i : Z)
      (s : Segment) :
  In s (iteration_segments n size o u v i) ->
  veq (vsub (snd s) (fst s)) (vscale u size)
  \/ veq (vsub (snd s) (fst s)) (vscale v size).
Proof.
  unfold iteration_segments.
  intros [<-|[<-|[]]]; [left|right];
    unfold veq, vsub, point, vadd, vscale, half; cbn [fst snd vx vy vz];
    repeat split; field.
Qed.

(** X3.  Every grid line spans its face from border to border: on each face
    of the node [buildCubeGrid] returns, with [uDir] and [vDir] the face's
    two directions, the end of every segment is its start moved by
    [size * uDir] or by [size * vDir]. *)
Theorem grid_lines_span_face (n : Z) (size : Q) (h : Heap) :
  exists node h',
    buildCubeGrid n size h = (Normal node, h')
    /\ Forall2 (fun (fr : Vector3 * Vector3 * Vector3) (f : Object3D) =>
                  forall s, In s (line_segments f) ->
                    veq (vsub (snd s) (fst s)) (vscale (snd (fst fr)) size)
                    \/ veq (vsub (snd s) (fst s)) (vscale (snd fr) size))
               (faceFrames size) (faceGrids node).
Proof.
  destruct (buildCubeGrid_run n size h) as [e He].
  exists (cubeNode n size), (h ++ e). split; [exact He|].
  rewrite faceGrids_cubeNode. unfold faceFrames. simpl map.
  repeat (apply List.Forall2_cons;
          [ intros s Hs; rewrite line_segments_faceGrid in Hs;
            apply in_faceSegments in Hs as (i & _ & Hs);
            apply (iteration_segments_span n size _ _ _ i s Hs)
          | ]).
  apply List.Forall2_nil.
Qed.






Lemma segments_flatten (n : Z) (size : Q) (o u v : Vector3) (l : list Z) :
  flat_map segment_coords (flat_map (iteration_segments n size o u v) l)
  = flat_map (iteration_lines n size o u v) l.
Proof.
  induction l as [|i l IH]; [reflexivity|].
  cbn [flat_map]. rewrite flat_map_app, IH. reflexivity.
Qed.

Lemma faceLines_length (n : Z) (size : Q) (o u v : Vector3) :
  length (faceLines n size o u v) = (12 * Z.to_nat (n - 1))%nat.
Proof.
  unfold faceLines, interiorIndices.
  generalize (Z.to_nat (n - 1)) as k. generalize 1%Z as s.
  intros s k; revert s.
  induction k as [|k IH]; intros s; cbn [zseq flat_map].
  - reflexivity.
  - rewrite length_app, IH. cbn [iteration_lines coords length app]. lia.
Qed.

(** X5.  The position attribute of every face grid holds whole segments and
    nothing else: it has item size 3 and [12 * (n - 1)] numbers (none for
    [n <= 1]), and writing out the coordinates of the segments read from it
    gives the array back. *)
Theorem face_positions_roundtrip (n : Z) (size : Q) (h : Heap) :
  exists node h',
    buildCubeGrid n size h = (Normal node, h')
    /\ Forall (fun f =>
                 exists a,
                   f = LineSegments (BufferGeometry a) edgeMat
                   /\ itemSize a = 3%nat
                   /\ length (array a) = (12 * Z.to_nat (n - 1))%nat
                   /\ flat_map segment_coords (line_segments f) = array a)
              (faceGrids node).
Proof.
  destruct (buildCubeGrid_run n size h) as [e He].
  exists (cubeNode n size), (h ++ e). split; [exact He|].
  rewrite faceGrids_cubeNode. unfold faceFrames. simpl map.
  repeat (apply List.Forall_cons;
          [ eexists; split; [reflexivity|]; split; [reflexivity|];
            split; [apply faceLines_length|];
            rewrite line_segments_faceGrid; apply segments_flatten
          | ]).
  apply List.Forall_nil.
Qed.

Lemma faceSegments_image (n : Z) (size : Q) (R : Vector3 -> Vector3)
      (o u v o' u' v' : Vector3) :
  (forall a b, veq (R (point o u v a b)) (point o' u' v' a b)) ->
  Forall2 segment_veq
          (map (map_segment R) (faceSegments n size o u v))
          (faceSegments n size o' u' v').
Proof.
  intros HR. unfold faceSegments.
  induction (interiorIndices n) as [|i l IH]; cbn [flat_map map].
  - apply List.Forall2_nil.
  - unfold iteration_segments at 1 3. cbn [app map].
    apply List.Forall2_cons; [split; apply HR|].
    apply List.Forall2_cons; [split; apply HR|].
    exact IH.
Qed.

Ltac half_turn :=
  intros a b; unfold veq, halfTurnY, halfTurnX, point, vadd, vscale;
  cbn [vx vy vz]; repeat split; ring.

(** X6.  The faces come in opposite pairs that carry the same grid: segment
    by segment, the grid of the back face is the grid of the front face
    turned by half a turn about the Y axis, so is the grid of the left face
    with respect to the right face, and the grid of the bottom face is the
    grid of the top face turned by half a turn about the X axis. *)
Theorem opposite_faces_congruent (n : Z) (size : Q) (h : Heap) :
  exists node h' front back right left top bottom,
    buildCubeGrid n size h = (Normal node, h')
    /\ faceGrids node = [front; back; right; left; top; bottom]
    /\ Forall2 segment_veq
               (map (map_segment halfTurnY) (line_segments front))
               (line_segments back)
    /\ Forall2 segment_veq
               (map (map_segment halfTurnY) (line_segments right))
               (line_segments left)
    /\ Forall2 segment_veq
               (map (map_segment halfTurnX) (line_segments top))
               (line_segments bottom).
Proof.
  destruct (buildCubeGrid_run n size h) as [e He].
  exists (cubeNode n size), (h ++ e).
  do 6 eexists. split; [exact He|].
  split; [rewrite faceGrids_cubeNode; reflexivity|].
  rewrite !line_segments_faceGrid.
  split; [|split]; apply faceSegments_image; half_turn.
Qed.

(** ** The lifecycle *)


(** What the cleanup closure leaves of the page, field by field. *)
Lemma cleanup_attached_fields (w : World) (el : Element) (r : WebGLRenderer)
      (c : OrbitControls) :
  mountRef_current w = Some el -> renderer w = Some r -> controls w = Some c ->
  In (domElement r) (childNodes el) ->
  exists w',
    cleanup_body w = (Normal tt, w')
    /\ mountRef_current w'
       = Some (mkElement (clientWidth el)
                 (List.filter (fun x => negb (Nat.eqb (domElement r) x))
                              (childNodes el)))
    /\ resizeListeners w'
       = List.filter (fun x => negb (Closure_eqb onResize x))
                     (resizeListeners w)
    /\ frameRequests w'
       = List.filter (fun q : nat * Closure =>
                        match animId w with
                        | Some i => negb (Nat.eqb i (fst q))
                        | None => true
                        end) (frameRequests w)
    /\ console w' = console w /\ uncaught w' = uncaught w
    /\ phase w' = phase w /\ cleanupPromise w' = cleanupPromise w
    /\ disposals w' = (Datatypes.S (controlsDisposals c),
                       Datatypes.S (rendererDisposals r)).
Proof.
  intros Hm Hr Hc Hin. destruct w; cbn in *; subst.
  unfold cleanup_body, mount_removeChild, bind; cbn.
  rewrite (existsb_eqb_In _ _ Hin). cbn.
  eexists. split; [reflexivity|]. world.
  split; [reflexivity|]. split; [reflexivity|]. split; [reflexivity|].
  split; [reflexivity|]. split; [reflexivity|]. split; [reflexivity|].
  split; reflexivity.
Qed.





Lemma idle_resize (w : World) :
  resizeListeners w = [] -> dispatch WindowResize w = w.
Proof. intros H. cbn [dispatch]. now rewrite H. Qed.

Lemma idle_frame (w : World) :
  frameRequests w = [] -> dispatch AnimationFrame w = w.
Proof. destruct w; cbn. now intros ->. Qed.

Lemma idle_teardown (w : World) :
  cleanupPromise w = None -> dispatch Teardown w = w.
Proof.
  intros H. cbn [dispatch]. unfold report.
  now rewrite (effect_cleanup_pending w H).
Qed.

(** X15.  While acquisition is pending nothing is installed: teardown
    requests, resize events and animation frames, in any number and order,
    leave the world exactly as it is. *)
Theorem pending_handlers_idle (w : World) (evs : list Event) :
  Pending w -> Forall handler_event evs -> run evs w = w.
Proof.
  intros (_ & Hl & Hf & _ & Hp & _) Hevs.
  induction Hevs as [|ev evs Hev _ IH]; [reflexivity|].
  cbn [run fold_left]. fold (run evs (dispatch ev w)).
  destruct Hev as [-> | [-> | ->]].
  - now rewrite (idle_teardown w Hp).
  - now rewrite (idle_resize w Hl).
  - now rewrite (idle_frame w Hf).
Qed.

Lemma pending_handlers_idle_witness :
  run [WindowResize; Teardown; AnimationFrame; Teardown] pending = pending.
Proof.
  apply (pending_handlers_idle pending).
  - unfold Pending. vm_compute. repeat split; auto.
  - repeat (apply List.Forall_cons; [unfold handler_event; tauto|]).
    apply List.Forall_nil.
Defined.

Lemma Failed_dispatch (ev : Event) (w : World) :
  Failed w -> Failed (dispatch ev w).
Proof.
  intros (Hph & Hl & Hf & Hg & Hp & Hc).
  destruct w; cbn in *; subst.
  destruct ev; cbn;
    destruct Hph as [[e ->] | ->]; cbn; repeat split; eauto.
Qed.

Lemma Failed_run (evs : list Event) : forall w, Failed w -> Failed (run evs w).
Proof.
  induction evs as [|ev evs IH]; intros w Hq; [exact Hq|].
  apply IH, Failed_dispatch, Hq.
Qed.

Lemma Settled_idle_dispatch (co un : list Exn) (ca : list Call) (ev : Event)
      (w : World) :
  Settled_idle co un ca w -> Settled_idle co un ca (dispatch ev w).
Proof.
  intros (Hph & Hp & Hl & Hf & Hc & Hu & Hca).
  destruct w; cbn in *; subst.
  destruct ev; cbn; repeat split.
Qed.

Lemma Settled_idle_run (co un : list Exn) (ca : list Call)
      (evs : list Event) :
  forall w, Settled_idle co un ca w -> Settled_idle co un ca (run evs w).
Proof.
  induction evs as [|ev evs IH]; intros w Hq; [exact Hq|].
  apply IH, Settled_idle_dispatch, Hq.
Qed.

(** X8.  When an import is rejected while acquisition is pending, the session
    never becomes active, whatever happens next; and once the reaction of
    [init()] has run, the error has been logged to the console exactly once,
    nothing has been reported as uncaught and no call has been made, however
    many events follow. *)
Theorem import_failure_reported (w : World) (evs : list Event) :
  Pending w ->
  ~ Active (run (ImportRejects :: evs) w)
  /\ console (run (ImportRejects :: PromiseReaction :: evs) w)
     = console w ++ [ImportError]
  /\ uncaught (run (ImportRejects :: PromiseReaction :: evs) w) = uncaught w
  /\ calls (run (ImportRejects :: PromiseReaction :: evs) w) = calls w.
Proof.
  intros (Hph & Hl & Hf & Hg & Hp & Hc).
  assert (Failed (dispatch ImportRejects w)) as HF.
  { destruct w; cbn in *; subst.
    destruct Hph as [-> | ->]; cbn; repeat split; eauto. }
  assert (Settled_idle (console w ++ [ImportError]) (uncaught w) (calls w)
            (dispatch PromiseReaction (dispatch ImportRejects w))) as HS.
  { destruct w; cbn in *; subst.
    destruct Hph as [-> | ->]; cbn; repeat split. }
  split.
  - cbn [run fold_left]. fold (run evs (dispatch ImportRejects w)).
    pose proof (Failed_run evs _ HF) as (_ & Hl' & Hf' & Hg' & _ & Hc').
    intros [H|[H|[H|H]]]; auto.
  - cbn [run fold_left].
    fold (run evs (dispatch PromiseReaction (dispatch ImportRejects w))).
    pose proof (Settled_idle_run _ _ _ evs _ HS)
      as (_ & _ & _ & _ & Hco & Hun & Hca).
    auto.
Qed.

Lemma import_failure_reported_witness :
  ~ Active (run (ImportRejects :: resumed) pending)
  /\ console (run (ImportRejects :: PromiseReaction :: resumed) pending)
     = console pending ++ [ImportError]
  /\ uncaught (run (ImportRejects :: PromiseReaction :: resumed) pending)
     = uncaught pending
  /\ calls (run (ImportRejects :: PromiseReaction :: resumed) pending)
     = calls pending.
Proof.
  apply (import_failure_reported pending).
  unfold Pending. vm_compute. repeat split; auto.
Defined.





(** X10.  Teardown stops the session for good: on a running session whose
    surface is attached, teardown reports no error, and afterwards resize
    events and animation frames, in any number and order, change nothing --
    no frame is rendered or requested and no resize is handled. *)
Theorem teardown_stops_loop (w : World) (evs : list Event) :
  Running w -> Attached w ->
  Forall (fun ev => ev = WindowResize \/ ev = AnimationFrame) evs ->
  uncaught (dispatch Teardown w) = uncaught w
  /\ resizeListeners (dispatch Teardown w) = []
  /\ frameRequests (dispatch Teardown w) = []
  /\ run evs (dispatch Teardown w) = dispatch Teardown w.
Proof.
  intros (Hp & Hl & (id & Hid & Hf) & _ & (c & Hc & _) & _)
         (el & r & Hm & Hr & Hin) Hevs.
  destruct (cleanup_attached_fields w el r c Hm Hr Hc Hin)
    as (w' & Hrun & _ & Hl' & Hf' & _ & Hu' & _).
  assert (dispatch Teardown w = w') as ->.
  { cbn [dispatch]. unfold report.
    now rewrite (effect_cleanup_running w Hp), Hrun. }
  rewrite Hl, Hid, Hf in *. cbn in Hl', Hf'.
  rewrite Nat.eqb_refl in Hf'. cbn in Hf'.
  split; [exact Hu'|]. split; [exact Hl'|]. split; [exact Hf'|].
  induction Hevs as [|ev evs Hev _ IH]; [reflexivity|].
  cbn [run fold_left]. fold (run evs (dispatch ev w')).
  destruct Hev as [-> | ->].
  - now rewrite (idle_resize w' Hl').
  - now rewrite (idle_frame w' Hf').
Qed.

Lemma teardown_stops_loop_witness :
  uncaught (dispatch Teardown started) = uncaught started
  /\ resizeListeners (dispatch Teardown started) = []
  /\ frameRequests (dispatch Teardown started) = []
  /\ run [AnimationFrame; WindowResize; AnimationFrame]
         (dispatch Teardown started)
     = dispatch Teardown started.
Proof.
  apply (teardown_stops_loop started).
  - unfold Running. vm_compute.
    repeat split; try discriminate; eexists; split; reflexivity.
  - unfold Attached. vm_compute. do 2 eexists.
    repeat split. left. reflexivity.
  - repeat (apply List.Forall_cons; [tauto|]). apply List.Forall_nil.
Defined.

(** X11.  [onResize] does not guard [mountRef.current]: if a resize event
    reaches a running session whose mount region is gone, the handler raises
    a [TypeError] before it touches anything; the error is reported and the
    world is otherwise exactly as it was (renderer size and camera aspect
    included). *)
Theorem resize_unmounted_raises (w : World) :
  Running w -> mountRef_current w = None ->
  dispatch WindowResize w = set_uncaught (uncaught w ++ [TypeError]) w.
Proof.
  intros (_ & Hl & _) Hm. cbn [dispatch]. rewrite Hl.
  cbn [fold_left call]. unfold report, onResize_body, bind, deref.
  now rewrite Hm.
Qed.

Lemma resize_unmounted_raises_witness :
  dispatch WindowResize (dispatch HostRemovesMount started)
  = set_uncaught (uncaught (dispatch HostRemovesMount started) ++ [TypeError])
                 (dispatch HostRemovesMount started).
Proof.
  apply (resize_unmounted_raises (dispatch HostRemovesMount started)).
  - unfold Running. vm_compute.
    repeat split; try discriminate; eexists; split; reflexivity.
  - reflexivity.
Defined.

Arguments viewHeight : simpl never.

(** One resize event on a running session with a live mount region. *)
Lemma resize_fields (w : World) (el : Element) (r : WebGLRenderer)
      (c : PerspectiveCamera) :
  Running w -> mountRef_current w = Some el ->
  renderer w = Some r -> camera w = Some c ->
  let W := clientWidth el in
  let H := viewHeight (innerHeight w) in
  Running (dispatch WindowResize w)
  /\ mountRef_current (dispatch WindowResize w) = Some el
  /\ innerHeight (dispatch WindowResize w) = innerHeight w
  /\ camera (dispatch WindowResize w)
     = Some (mkCamera (fov c) (W / H) (near c) (far c) (cameraPosition c)
                      (W / H))
  /\ renderer (dispatch WindowResize w)
     = Some (mkRenderer (domElement r) (pixelRatio r) (W, H)
                        (outputEncoding r) (rendererDisposals r))
  /\ uncaught (dispatch WindowResize w) = uncaught w.
Proof.
  intros (Hp & Hl & (id & Hid & Hf) & (r0 & Hr0 & Hrd) & (c0 & Hc0 & Hcd)
          & Hcam & Hsc & Hg) Hm Hr Hc W H.
  subst W H. rewrite Hr in Hr0. injection Hr0 as <-.
  destruct w; cbn in *; subst.
  unfold report, onResize_body, bind; cbn.
  split.
  { unfold Running; cbn. split; [reflexivity|]. split; [reflexivity|].
    split; [eexists; split; reflexivity|].
    split; [eexists; split; [reflexivity|exact Hrd]|].
    split; [eexists; split; [reflexivity|exact Hcd]|].
    split; [discriminate|]. auto. }
  repeat split.
Qed.

(** X12.  Handling a resize is idempotent: on a running session with a live
    mount region, a second resize event right after the first (same mount
    width, same viewport height) leaves the camera and the renderer as the
    first one set them, and the session is still running with no error
    reported. *)
Theorem resize_idempotent (w : World) (el : Element) :
  Running w -> mountRef_current w = Some el ->
  Running (dispatch WindowResize w)
  /\ camera (dispatch WindowResize (dispatch WindowResize w))
     = camera (dispatch WindowResize w)
  /\ renderer (dispatch WindowResize (dispatch WindowResize w))
     = renderer (dispatch WindowResize w)
  /\ uncaught (dispatch WindowResize (dispatch WindowResize w)) = uncaught w.
Proof.
  intros HR Hm.
  pose proof HR as (_ & _ & _ & (r & Hr & _) & _ & Hcam & _).
  destruct (camera w) as [c|] eqn:Hc; [|contradiction].
  destruct (resize_fields w el r c HR Hm Hr Hc)
    as (HR1 & Hm1 & Hih1 & Hc1 & Hr1 & Hu1).
  destruct (resize_fields _ el _ _ HR1 Hm1 Hr1 Hc1)
    as (_ & _ & _ & Hc2 & Hr2 & Hu2).
  rewrite Hc2, Hr2, Hu2, Hc1, Hr1, Hih1, Hu1. cbn. auto.
Qed.

Lemma resize_idempotent_witness :
  Running (dispatch WindowResize started)
  /\ camera (dispatch WindowResize (dispatch WindowResize started))
     = camera (dispatch WindowResize started)
  /\ renderer (dispatch WindowResize (dispatch WindowResize started))
     = renderer (dispatch WindowResize started)
  /\ uncaught (dispatch WindowResize (dispatch WindowResize started))
     = uncaught started.
Proof.
  apply (resize_idempotent started (mkElement 800 [0%nat])).
  - unfold Running. vm_compute.
    repeat split; try discriminate; eexists; split; reflexivity.
  - vm_compute. reflexivity.
Defined.



